(** * Verification of [global_search] (search.py)

    A shallow embedding of the function [global_search] of the global search
    utility: the per-line quote/comment state machine, the per-line statistics
    classification, the per-line match decision, and the orchestration over
    files with its counters, result cap, in-place rewrite and editor launch.

    Modelling choices:
    - Python [str] values are lists of [ascii]; a character stands for a
      code point below 256 (so [str.isspace] and [str.lower] are given for
      that range).
    - A candidate file is a record holding its path, the text the decoder
      delivers (before universal-newline translation) and a flag telling
      whether the decoder raises [UnicodeDecodeError] after that text.
    - The file list [fichiers] (directory walk and extension filter) is an
      input; the [skip_paths] regular expression is an abstract predicate
      on paths. The extension filter of line 124 ([select_file]) and the
      construction and search of the pattern of lines 76-81 and 139
      ([ignore_regex], [skips], over a regular-expression subset that holds
      every pattern the default [IGNORE] list produces) are modelled on
      their own and tied to the run by hypotheses.
    - Output is recorded as a trace of events: editor launches, warnings and
      file rewrites; coloured printing of results is not modelled.
    - Files are opened in text mode on Linux: reading translates "\r\n" and
      "\r" to "\n", writing leaves "\n" unchanged.
    - [assert] statements are executed (Python is not run with -O). *)

From Stdlib Require Import Ascii String List Bool Arith ZArith Lia.
Import ListNotations.

(** ** Python strings *)

Definition str := list ascii.

(** String literal helper. *)
Definition s2l (s : string) : str := list_ascii_of_string s.

Definition chr (n : nat) : ascii := ascii_of_nat n.
Definition NL : ascii := chr 10.
Definition CR : ascii := chr 13.
Definition SQUOTE : ascii := chr 39.
Definition DQUOTE : ascii := chr 34.

(** [str.isspace] for a code point below 256. *)
Definition is_space (c : ascii) : bool :=
  let n := nat_of_ascii c in
  ((9 <=? n) && (n <=? 13)) || ((28 <=? n) && (n <=? 32))
  || (n =? 133) || (n =? 160).

(** [str.lower] for a code point below 256. *)
Definition lower_char (c : ascii) : ascii :=
  let n := nat_of_ascii c in
  if ((65 <=? n) && (n <=? 90)) || ((192 <=? n) && (n <=? 222) && negb (n =? 215))
  then ascii_of_nat (n + 32) else c.

Definition py_lower (s : str) : str := map lower_char s.

(** [s.lstrip(chars)] for a set of characters given as a predicate. *)
Fixpoint lstrip_by (p : ascii -> bool) (s : str) : str :=
  match s with
  | [] => []
  | c :: s' => if p c then lstrip_by p s' else s
  end.

Definition rstrip_by (p : ascii -> bool) (s : str) : str :=
  rev (lstrip_by p (rev s)).

Definition strip_by (p : ascii -> bool) (s : str) : str :=
  rstrip_by p (lstrip_by p s).

(** [s.lstrip()], [s.strip()] and [s.strip(m)] for a one-character [m]. *)
Definition py_lstrip (s : str) : str := lstrip_by is_space s.
Definition py_strip (s : str) : str := strip_by is_space s.
Definition py_strip_chars (m : ascii) (s : str) : str :=
  strip_by (fun c => Ascii.eqb c m) s.

(** [s.startswith(m)] for a one-character [m]. *)
Definition py_startswith (s : str) (m : ascii) : bool :=
  match s with
  | c :: _ => Ascii.eqb c m
  | [] => false
  end.

(** [m in s] for a one-character [m]. *)
Definition py_contains_char (m : ascii) (s : str) : bool :=
  existsb (fun c => Ascii.eqb c m) s.

Fixpoint is_prefix (p s : str) : bool :=
  match p, s with
  | [], _ => true
  | a :: p', b :: s' => Ascii.eqb a b && is_prefix p' s'
  | _ :: _, [] => false
  end.

Fixpoint find_from (sub s : str) (i : nat) : option nat :=
  if is_prefix sub s then Some i
  else match s with
       | [] => None
       | _ :: s' => find_from sub s' (S i)
       end.

(** [s.find(sub)]: [None] stands for -1. *)
Definition py_find (s sub : str) : option nat := find_from sub s 0.

(** [s.replace(old, new)] for a non-empty [old]: left to right, non
    overlapping; [skip] counts the characters of the last match still to be
    consumed. *)
Fixpoint replace_aux (old new : str) (skip : nat) (s : str) : str :=
  match s with
  | [] => []
  | c :: s' =>
      match skip with
      | S k => replace_aux old new k s'
      | O => if is_prefix old s then new ++ replace_aux old new (pred (List.length old)) s'
             else c :: replace_aux old new 0 s'
      end
  end.

(** [s.replace(old, new)]; with an empty [old] Python inserts [new] around
    every character. *)
Definition py_replace (s old new : str) : str :=
  match old with
  | [] => new ++ flat_map (fun c => c :: new) s
  | _ => replace_aux old new 0 s
  end.

(** ** Reading and writing files (text mode, Linux) *)

(** Universal newlines: "\r\n" and "\r" become "\n". *)
Fixpoint translate_newlines (s : str) : str :=
  match s with
  | [] => []
  | c :: s' =>
      if Ascii.eqb c CR then
        match s' with
        | d :: s'' => if Ascii.eqb d NL then NL :: translate_newlines s''
                      else NL :: translate_newlines s'
        | [] => [NL]
        end
      else c :: translate_newlines s'
  end.

(** Iterating over a file object: lines keep their final "\n"; [cur] is
    the reversed line being read. *)
Fixpoint split_lines_aux (cur : str) (s : str) : list str :=
  match s with
  | [] => match cur with [] => [] | _ => [rev cur] end
  | c :: s' =>
      if Ascii.eqb c NL then rev (c :: cur) :: split_lines_aux [] s'
      else split_lines_aux (c :: cur) s'
  end.

Definition split_lines (s : str) : list str := split_lines_aux [] s.

Definition read_lines (data : str) : list str :=
  split_lines (translate_newlines data).

(** [for line in lines: fichier.write(line)] *)
Definition write_lines (lines : list str) : str := List.concat lines.

(** ** The quote/comment state machine (search.py, lines 177-188)

    [mode] is [None] or the character that opened the current region: a
    single quote, a double quote, or the comment marker ([InComment] is
    [Some comment_marker]). *)

Definition is_special (comment_marker c : ascii) : bool :=
  Ascii.eqb c SQUOTE || Ascii.eqb c DQUOTE || Ascii.eqb c comment_marker.

(** One iteration of [for c in substr]; the [continue] after entering a
    comment only skips the (already exclusive) [elif]. *)
Definition mode_step (comment_marker : ascii) (mode : option ascii) (c : ascii)
  : option ascii :=
  if is_special comment_marker c then
    match mode with
    | None => Some c
    | Some m => if Ascii.eqb m c then None else mode
    end
  else mode.

Definition scan_mode (comment_marker : ascii) (substr : str) : option ascii :=
  fold_left (mode_step comment_marker) substr None.

Definition opt_eqb (a b : option ascii) : bool :=
  match a, b with
  | None, None => true
  | Some x, Some y => Ascii.eqb x y
  | _, _ => false
  end.

(** The test of lines 171-188: the candidate is dropped as lying inside a
    trailing comment. *)
Definition inside_comment (comment_marker : ascii) (substr : str) : bool :=
  py_contains_char comment_marker substr
  && opt_eqb (scan_mode comment_marker substr) (Some comment_marker).

(** ** Statistics of one line (lines 150-161) *)

Record counters := mkCounters {
  code_lines_count : nat;
  comments_lines_count : nat;
  files_count : nat;
  empty_lines_count : nat;
  matching_lines : nat;
  occurrences : nat
}.

Definition incr_code (k : counters) : counters :=
  {| code_lines_count := S (code_lines_count k);
     comments_lines_count := comments_lines_count k; files_count := files_count k;
     empty_lines_count := empty_lines_count k; matching_lines := matching_lines k;
     occurrences := occurrences k |}.
Definition incr_comments (k : counters) : counters :=
  {| code_lines_count := code_lines_count k;
     comments_lines_count := S (comments_lines_count k); files_count := files_count k;
     empty_lines_count := empty_lines_count k; matching_lines := matching_lines k;
     occurrences := occurrences k |}.
Definition incr_files (k : counters) : counters :=
  {| code_lines_count := code_lines_count k;
     comments_lines_count := comments_lines_count k; files_count := S (files_count k);
     empty_lines_count := empty_lines_count k; matching_lines := matching_lines k;
     occurrences := occurrences k |}.
Definition incr_empty (k : counters) : counters :=
  {| code_lines_count := code_lines_count k;
     comments_lines_count := comments_lines_count k; files_count := files_count k;
     empty_lines_count := S (empty_lines_count k); matching_lines := matching_lines k;
     occurrences := occurrences k |}.
Definition incr_matching (k : counters) : counters :=
  {| code_lines_count := code_lines_count k;
     comments_lines_count := comments_lines_count k; files_count := files_count k;
     empty_lines_count := empty_lines_count k; matching_lines := S (matching_lines k);
     occurrences := occurrences k |}.
Definition incr_occurrences (k : counters) : counters :=
  {| code_lines_count := code_lines_count k;
     comments_lines_count := comments_lines_count k; files_count := files_count k;
     empty_lines_count := empty_lines_count k; matching_lines := matching_lines k;
     occurrences := S (occurrences k) |}.

Definition counters0 : counters := mkCounters 0 0 0 0 0 0.

Definition stats_line (comment_marker : ascii) (line : str) (k : counters) : counters :=
  let line := py_strip line in
  match line with
  | c :: _ =>
      if negb (Ascii.eqb c comment_marker) then incr_code k
      else match py_strip_chars comment_marker line with
           | _ :: _ => incr_comments k
           | [] => incr_empty k
           end
  | [] => incr_empty k
  end.

(** ** The match decision for one line (lines 162-189)

    [string] is the search string after the optional lower-casing of line
    114.  The result is [Some (pos, line)] with the position of the accepted
    occurrence and the line as possibly lower-cased, or [None] when the loop
    reaches a [continue] or finds nothing. *)
Definition match_line (string : str) (case include_comments : bool)
  (comment_marker : ascii) (line : str) : option (nat * str) :=
  if negb include_comments && py_startswith (py_lstrip line) comment_marker then None
  else
    let line := if negb case then py_lower line else line in
    match py_find line string with
    | None => None
    | Some pos =>
        if negb include_comments && inside_comment comment_marker (firstn pos line)
        then None
        else Some (pos, line)
    end.

(** ** Configuration, events and results *)

(** The arguments of [global_search]; [skip_path] is [re.search(IGNORE_RE, _)]
    (always [false] when [skip_paths] is empty).  [comment_marker] is one
    character, as in the spec's data model. *)
Record config := mkConfig {
  string_ : str;
  case : bool;
  include_comments : bool;
  comment_marker : ascii;
  maximum : Z;
  stats : bool;
  replace_with : option str;
  edit_with : option str;
  edit_result : option (list Z);
  skip_path : str -> bool
}.

Definition str_eqb (a b : str) : bool :=
  if list_eq_dec ascii_dec a b then true else false.

Definition py_in (x : str) (xs : list str) : bool := existsb (str_eqb x) xs.

Definition SUPPORTED_EDITORS : list str :=
  map s2l ["geany"; "gedit"; "nano"; "vim"; "emacs"; "kate"; "kile"]%string.

(** The three command templates of lines 212, 214 and 216. *)
Inductive line_flag := FlagL | FlagLine | FlagPlus.

Inductive command := Command (editor : str) (flag : line_flag) (line : nat) (file : str).

Inductive event :=
  | EvCall (c : command)            (* subprocess.call(command, shell=True) *)
  | EvUnsupported (editor : str)    (* the two warnings of lines 209-210 *)
  | EvDecodeError (file : str)      (* the warning of lines 225-228 *)
  | EvWrite (file : str) (data : str). (* the rewrite of lines 236-238 *)

Inductive result :=
  | Truncated                                   (* "Maximum output exceeded...!" *)
  | StatsSummary (code comments empty files : nat)
  | Found (occ : nat)                           (* "-> %s occurence(s) trouvée(s)." *)
  | Replaced (occ : nat)                        (* "%s occurence(s) de %s remplacée(s) par %s." *)
  | AssertionError                              (* assert case *)
  | UnboundLocalError.                          (* command used before assignment *)

(** The local variables of [global_search] that live across files: the
    counters, [command], and the output produced so far. *)
Record st := mkSt {
  cnt : counters;
  command_var : option command;
  trace : list event
}.

Definition st0 : st := mkSt counters0 None [].

Definition upd_cnt (f : counters -> counters) (s : st) : st :=
  mkSt (f (cnt s)) (command_var s) (trace s).

Definition emit (e : event) (s : st) : st :=
  mkSt (cnt s) (command_var s) (trace s ++ [e]).

Record file := mkFile {
  fname : str;
  fdata : str;   (* the text the decoder delivers *)
  fbad : bool    (* UnicodeDecodeError after that text *)
}.

(** ** The editor launch (lines 203-218)

    [EditOk s] continues the line loop with state [s]; [EditRaise s] is the
    [UnboundLocalError] raised when an unsupported editor is requested
    before any [command] was built, [s] holding the output printed before
    the exception (the warnings of lines 209-210). *)
Inductive edit_outcome :=
  | EditOk (s : st)
  | EditRaise (s : st).

Definition edit_step (cfg : config) (filename : str) (n : nat) (s : st) : edit_outcome :=
  match edit_with cfg, edit_result cfg with
  | Some e, Some er =>
      if match er with
         | [] => true
         | _ => existsb (Z.eqb (Z.of_nat (S (matching_lines (cnt s))))) er
         end
      then
        if negb (py_in e SUPPORTED_EDITORS) then
          let s := emit (EvUnsupported e) s in
          match command_var s with
          | None => EditRaise s
          | Some c => EditOk (emit (EvCall c) s)
          end
        else
          let c :=
            if py_in e (map s2l ["geany"; "kate"]%string) then Command e FlagL (S n) filename
            else if py_in e [s2l "kile"] then Command e FlagLine (S n) filename
            else Command e FlagPlus (S n) filename in
          EditOk (emit (EvCall c) (mkSt (cnt s) (Some c) (trace s)))
      else EditOk s
  | _, _ => EditOk s
  end.

(** ** The loop over the lines of one file (lines 147-222) *)

Inductive line_outcome :=
  | LReturn (r : result) (s : st)
  | LDone (s : st) (lines : list str) (results : list (nat * nat)).

(** [lines[-1] = x] *)
Definition set_last (l : list str) (x : str) : list str := removelast l ++ [x].

(** [cfg] is the configuration after lines 111-114; [n] is the index given by
    [enumerate], [lines] the buffer of line 144 and [results] the list of
    line 145 (each entry keeps the result number and the line number). *)
Fixpoint scan_lines (cfg : config) (filename : str) (n : nat) (ls : list str)
  (s : st) (lines : list str) (results : list (nat * nat)) : line_outcome :=
  match ls with
  | [] => LDone s lines results
  | line :: rest =>
      let lines := match replace_with cfg with Some _ => lines ++ [line] | None => lines end in
      if stats cfg then
        scan_lines cfg filename (S n) rest
          (upd_cnt (stats_line (comment_marker cfg) line) s) lines results
      else
        match match_line (string_ cfg) (case cfg) (include_comments cfg)
                (comment_marker cfg) line with
        | None => scan_lines cfg filename (S n) rest s lines results
        | Some (pos, line') =>
            let s := upd_cnt incr_occurrences s in
            let lines := match replace_with cfg with
                         | Some r => set_last lines (py_replace line' (string_ cfg) r)
                         | None => lines
                         end in
            let results := results ++ [(S (matching_lines (cnt s)), S n)] in
            match edit_step cfg filename n s with
            | EditRaise s => LReturn UnboundLocalError s
            | EditOk s =>
                let s := upd_cnt incr_matching s in
                if (maximum cfg <? Z.of_nat (matching_lines (cnt s)))%Z
                then LReturn Truncated s
                else scan_lines cfg filename (S n) rest s lines results
            end
        end
  end.

(** ** The loop over the files (lines 138-238) *)

Inductive file_outcome :=
  | FReturn (r : result) (s : st)
  | FDone (s : st).

Fixpoint scan_files (cfg : config) (fichiers : list file) (s : st) : file_outcome :=
  match fichiers with
  | [] => FDone s
  | f :: rest =>
      if skip_path cfg (fname f) then scan_files cfg rest s
      else
        let s := upd_cnt incr_files s in
        match scan_lines cfg (fname f) 0 (read_lines (fdata f)) s [] [] with
        | LReturn r s' => FReturn r s'
        | LDone s' lines results =>
            let correct_encoding := negb (fbad f) in
            let s' := if fbad f then emit (EvDecodeError (fname f)) s' else s' in
            let s' :=
              match results, replace_with cfg with
              | _ :: _, Some _ =>
                  if correct_encoding then emit (EvWrite (fname f) (write_lines lines)) s'
                  else s'
              | _, _ => s'
              end in
            scan_files cfg rest s'
        end
  end.

(** Lines 240-257. *)
Definition final_result (cfg : config) (k : counters) : result :=
  if stats cfg then
    StatsSummary (code_lines_count k) (comments_lines_count k)
                 (empty_lines_count k) (files_count k)
  else match replace_with cfg with
       | None => Found (occurrences k)
       | Some _ => Replaced (occurrences k)
       end.

(** Lines 111-114. *)
Definition prepare (cfg : config) : config :=
  {| string_ := if case cfg then string_ cfg else py_lower (string_ cfg);
     case := case cfg;
     include_comments := include_comments cfg;
     comment_marker := comment_marker cfg;
     maximum := maximum cfg;
     stats := match string_ cfg with [] => true | _ => stats cfg end;
     replace_with := replace_with cfg;
     edit_with := edit_with cfg;
     edit_result := edit_result cfg;
     skip_path := skip_path cfg |}.

(** [global_search]: the returned value and the output trace. *)
Definition global_search (cfg : config) (fichiers : list file) : result * list event :=
  let run :=
    match scan_files (prepare cfg) fichiers st0 with
    | FReturn r s => (r, trace s)
    | FDone s => (final_result (prepare cfg) (cnt s), trace s)
    end in
  match replace_with cfg with
  | Some _ => if case cfg then run else (AssertionError, [])
  | None => run
  end.

(** The content of a path after a run: its last rewrite, if any. *)
Definition data_after (f : file) (evs : list event) : str :=
  fold_left (fun d e => match e with
                        | EvWrite p data => if str_eqb p (fname f) then data else d
                        | _ => d
                        end) evs (fdata f).

(** ** Defaults and views used by the statements *)

(** [global_search(string)] with every other argument at its default and no
    path skipped. *)
Definition search_cfg (s : str) : config :=
  mkConfig s true false "#"%char 100%Z false None None None (fun _ => false).

(** The body of a line once its surrounding whitespace is set apart: empty,
    or starting and ending with a character that is not whitespace. *)
Definition edges_non_space (body : str) : bool :=
  match body with
  | [] => true
  | c :: _ => negb (is_space c) && negb (is_space (last body c))
  end.

(** The statistics a run in statistics mode should gather: every line
    delivered for every file that is not skipped is classified. *)
Fixpoint stats_count (cm : ascii) (skip : str -> bool) (fs : list file)
  (k : counters) : counters :=
  match fs with
  | [] => k
  | f :: rest =>
      if skip (fname f) then stats_count cm skip rest k
      else stats_count cm skip rest
             (fold_left (fun k l => stats_line cm l k) (read_lines (fdata f)) (incr_files k))
  end.

(** The warnings of the files that fail to decode. *)
Definition decode_warnings (skip : str -> bool) (fs : list file) : list event :=
  flat_map (fun f => if skip (fname f) then []
                     else if fbad f then [EvDecodeError (fname f)] else []) fs.

(** The files rewritten by a piece of output, with their new content. *)
Definition writes (es : list event) : list (str * str) :=
  flat_map (fun e => match e with EvWrite p d => [(p, d)] | _ => [] end) es.

Definition line_outcome_state (o : line_outcome) : st :=
  match o with LReturn _ s => s | LDone s _ _ => s end.

(** The shape of the lines a file object yields: every line ends with its
    only "\n", except possibly the last one, which is then non-empty and
    has none. *)
Definition nl_line (x : str) : Prop := exists a, x = a ++ [NL] /\ ~ In NL a.

Definition lines_ok (ls : list str) : Prop :=
  Forall nl_line ls
  \/ exists ls' z, ls = ls' ++ [z] /\ Forall nl_line ls' /\ z <> [] /\ ~ In NL z.

(** No unsupported editor is requested: the branch of lines 208-210, which
    reaches [subprocess.call(command)] without a command of its own, is never
    taken. *)
Definition editor_ok (cfg : config) : bool :=
  match edit_with cfg, edit_result cfg with
  | Some e, Some _ => py_in e SUPPORTED_EDITORS
  | _, _ => true
  end.

(** The same invocation without a replacement string. *)
Definition without_replace (cfg : config) : config :=
  mkConfig (string_ cfg) (case cfg) (include_comments cfg) (comment_marker cfg)
    (maximum cfg) (stats cfg) None (edit_with cfg) (edit_result cfg) (skip_path cfg).

(** ** Views of a run used by the further properties *)

(** The line that [lines[-1]] holds once line [l] has been processed
    (lines 148-149 and 191-192). *)
Definition rewrite_line (cfg : config) (l : str) : str :=
  match match_line (string_ cfg) (case cfg) (include_comments cfg) (comment_marker cfg) l,
        replace_with cfg with
  | Some (_, l'), Some r => py_replace l' (string_ cfg) r
  | _, _ => l
  end.

Definition accepted (cfg : config) (l : str) : bool :=
  match match_line (string_ cfg) (case cfg) (include_comments cfg) (comment_marker cfg) l with
  | Some _ => true
  | None => false
  end.

(** The number of accepted lines over the files that are not skipped. *)
Fixpoint total_matches (cfg : config) (fs : list file) : nat :=
  match fs with
  | [] => 0
  | f :: rest =>
      (if skip_path cfg (fname f) then 0
       else List.length (filter (accepted cfg) (read_lines (fdata f))))
      + total_matches cfg rest
  end.

(** The editor launches of an output trace. *)
Definition calls (es : list event) : list command :=
  flat_map (fun e => match e with EvCall c => [c] | _ => [] end) es.

(** The 0-based indices of the accepted lines of [ls], the first line
    having index [n]. *)
Fixpoint accepted_indices (cfg : config) (n : nat) (ls : list str) : list nat :=
  match ls with
  | [] => []
  | l :: rest =>
      (if accepted cfg l then [n] else []) ++ accepted_indices cfg (S n) rest
  end.

(** The command lines 211-216 build for a supported editor [e], the 0-based
    line index [n] and the path [p]. *)
Definition editor_command (e : str) (n : nat) (p : str) : command :=
  if py_in e (map s2l ["geany"; "kate"]%string) then Command e FlagL (S n) p
  else if py_in e [s2l "kile"] then Command e FlagLine (S n) p
  else Command e FlagPlus (S n) p.

(** ** The candidate files (lines 123-125) *)

(** [s.rfind(c)] for a one-character [c]; -1 when absent. *)
Fixpoint rfind_aux (c : ascii) (s : str) (i : nat) (best : Z) : Z :=
  match s with
  | [] => best
  | d :: s' => rfind_aux c s' (S i) (if Ascii.eqb d c then Z.of_nat i else best)
  end.

Definition py_rfind (s : str) (c : ascii) : Z := rfind_aux c s 0 (-1).

(** [s[i:]]: a negative [i] counts from the end, clamped at 0. *)
Definition py_slice_from (s : str) (i : Z) : str :=
  let j := if (i <? 0)%Z then Z.max 0 (Z.of_nat (List.length s) + i) else i in
  skipn (Z.to_nat j) s.

(** The filter of line 124: [f[f.rfind(".") :] in extensions]. *)
Definition select_file (extensions : list str) (f : str) : bool :=
  py_in (py_slice_from f (py_rfind f "."%char)) extensions.

Definition default_extensions : list str := map s2l [".py"; ".pyw"]%string.

(** ** The skip-path pattern (lines 76-81 and 139-140)

    Regular expressions of the subset of Python's [re] syntax that the
    skip patterns use: literal characters, [.], a postfix [*], [|] and
    groups.  Matching is by language membership (Brzozowski derivatives);
    [.] does not match a newline, as in [re] without [DOTALL]. *)
Inductive regex :=
  | RNone                     (* matches nothing *)
  | REps                      (* the empty string *)
  | RChar (c : ascii)
  | RAny                      (* . *)
  | RCat (r1 r2 : regex)
  | RAlt (r1 r2 : regex)      (* | *)
  | RStar (r : regex).        (* * *)

Fixpoint nullable (r : regex) : bool :=
  match r with
  | RNone | RChar _ | RAny => false
  | REps | RStar _ => true
  | RCat r1 r2 => nullable r1 && nullable r2
  | RAlt r1 r2 => nullable r1 || nullable r2
  end.

Fixpoint deriv (c : ascii) (r : regex) : regex :=
  match r with
  | RNone | REps => RNone
  | RChar d => if Ascii.eqb c d then REps else RNone
  | RAny => if Ascii.eqb c NL then RNone else REps
  | RCat r1 r2 =>
      if nullable r1 then RAlt (RCat (deriv c r1) r2) (deriv c r2)
      else RCat (deriv c r1) r2
  | RAlt r1 r2 => RAlt (deriv c r1) (deriv c r2)
  | RStar r1 => RCat (deriv c r1) (RStar r1)
  end.

Definition matches (r : regex) (s : str) : bool :=
  nullable (fold_left (fun r c => deriv c r) s r).

(** [re.search(r, s)] succeeds when some substring of [s] is matched. *)
Definition re_search (r : regex) (s : str) : bool :=
  existsb (fun i => existsb (fun j => matches r (firstn j (skipn i s)))
                      (seq 0 (S (List.length s - i))))
          (seq 0 (S (List.length s))).

(** Characters with a meaning in [re] that the subset leaves out. *)
Definition re_meta_other (c : ascii) : bool :=
  existsb (Ascii.eqb c) (s2l "\^$+?{}[]*").

(** A recursive-descent reading of the subset; [None] for a pattern outside
    it (Python's own errors, such as "nothing to repeat" or an unbalanced
    parenthesis, included). *)
Fixpoint parse_alt (fuel : nat) (s : str) : option (regex * str) :=
  match fuel with
  | O => None
  | S k =>
      match parse_cat k s with
      | Some (r, c :: s') =>
          if Ascii.eqb c "|"%char then
            match parse_alt k s' with
            | Some (r2, s'') => Some (RAlt r r2, s'')
            | None => None
            end
          else Some (r, c :: s')
      | o => o
      end
  end
with parse_cat (fuel : nat) (s : str) : option (regex * str) :=
  match fuel with
  | O => None
  | S k =>
      match s with
      | [] => Some (REps, [])
      | c :: _ =>
          if Ascii.eqb c "|"%char || Ascii.eqb c ")"%char then Some (REps, s)
          else
            match parse_atom k s with
            | Some (a, s') =>
                match parse_cat k s' with
                | Some (r, s'') => Some (RCat a r, s'')
                | None => None
                end
            | None => None
            end
      end
  end
with parse_atom (fuel : nat) (s : str) : option (regex * str) :=
  match fuel with
  | O => None
  | S k =>
      let base :=
        match s with
        | c :: s' =>
            if Ascii.eqb c "("%char then
              match parse_alt k s' with
              | Some (r, d :: s'') => if Ascii.eqb d ")"%char then Some (r, s'') else None
              | _ => None
              end
            else if Ascii.eqb c "."%char then Some (RAny, s')
            else if re_meta_other c then None
            else Some (RChar c, s')
        | [] => None
        end in
      match base with
      | Some (a, d :: s') =>
          if Ascii.eqb d "*"%char then
            match s' with
            | e :: _ => if re_meta_other e then None else Some (RStar a, s')
            | [] => Some (RStar a, s')
            end
          else Some (a, d :: s')
      | o => o
      end
  end.

Definition re_parse (s : str) : option regex :=
  match parse_alt (4 * List.length s + 4) s with
  | Some (r, []) => Some r
  | _ => None
  end.

(** ["|".join(xs)] *)
Definition py_join (sep : str) (xs : list str) : str :=
  match xs with
  | [] => []
  | x :: rest => x ++ flat_map (fun y => sep ++ y) rest
  end.

(** The source of [IGNORE_RE] (line 78). *)
Definition ignore_source (skip_paths : list str) : str :=
  py_join (s2l "|")
    (map (fun p => s2l "(" ++ py_strip (py_replace p (s2l "*") (s2l ".*")) ++ s2l ")")
         (filter (fun p => match p with [] => false | _ => true end) skip_paths)).

(** [IGNORE_RE] (lines 76-81): [Some None] when [skip_paths] is empty,
    [Some (Some r)] for a compiled pattern, [None] for a pattern outside the
    subset. *)
Definition ignore_regex (skip_paths : list str) : option (option regex) :=
  match skip_paths with
  | [] => Some None
  | _ => match re_parse (ignore_source skip_paths) with
         | Some r => Some (Some r)
         | None => None
         end
  end.

(** The test of line 139. *)
Definition skips (ir : option regex) (filename : str) : bool :=
  match ir with
  | None => false
  | Some r => re_search r filename
  end.

(** The module constant [IGNORE], the command line's default for
    [--skip-paths]. *)
Definition IGNORE : list str := map s2l [".*"; "dist/"; "doc/"; ".tox/*"]%string.

(** A rewrite of [p] with contents [d] comes from a file [p] of the run
    that is not skipped, decodes, holds an accepted line, and [d] is its
    lines each passed through [rewrite_line] (lines 191-192, 230-238). *)
Definition write_origin (cfg : config) (fs : list file) (p d : str) : Prop :=
  exists f, In f fs /\ fname f = p /\ skip_path cfg p = false /\ fbad f = false
  /\ stats cfg = false /\ replace_with cfg <> None
  /\ d = List.concat (map (rewrite_line cfg) (read_lines (fdata f)))
  /\ exists l, In l (read_lines (fdata f)) /\ accepted cfg l = true.

(** ** Example inputs *)

(** A corpus with five matching lines in one file, followed by another
    file with a match. *)
Definition five_b : file := mkFile (s2l "a.py") (List.concat (repeat (s2l "b" ++ [NL]) 5)) false.
Definition three_b : file := mkFile (s2l "a.py") (List.concat (repeat (s2l "b" ++ [NL]) 3)) false.
Definition two_b : file := mkFile (s2l "a.py") (List.concat (repeat (s2l "b" ++ [NL]) 2)) false.
Definition other_b : file := mkFile (s2l "b.py") (s2l "b" ++ [NL]) false.
Definition max2_cfg : config :=
  mkConfig (s2l "b") true false "#"%char 2%Z false None None None (fun _ => false).

(** A replace run with maximum 1 over two files. *)
Definition replace_max1_cfg : config :=
  mkConfig (s2l "b") true false "#"%char 1%Z false (Some (s2l "c")) None None (fun _ => false).
Definition done_file : file := mkFile (s2l "a.py") (s2l "b" ++ [NL]) false.
Definition cut_file : file := mkFile (s2l "b.py") (s2l "b" ++ [NL] ++ s2l "b" ++ [NL]) false.

(** A replace run of the search for [s] by [r] with maximum [mx] on
    [a.py], holding [d]. *)
Definition rcfg (s r : string) (mx : Z) : config :=
  mkConfig (s2l s) true false "#"%char mx false (Some (s2l r)) None None (fun _ => false).
Definition afile (d : str) (bad : bool) : file := mkFile (s2l "a.py") d bad.

(** A file whose only matching line is its second one. *)
Definition rt_data : str := s2l "a" ++ [NL] ++ s2l "b + b" ++ [NL] ++ s2l "d" ++ [NL].

(** A first line matched in code, with a second occurrence in its trailing
    comment, then a comment line. *)
Definition cm_data : str := s2l "b = 1  # b" ++ [NL] ++ s2l "# b" ++ [NL].

(** [global_search] skipping the path [a.py]. *)
Definition skip_a_cfg : config :=
  mkConfig (s2l "b") true false "#"%char 100%Z false (Some (s2l "c")) None None
    (fun p => str_eqb p (s2l "a.py")).

(** [global_search] with editor [e] opening every result. *)
Definition edit_all_cfg (e : string) : config :=
  mkConfig (s2l "b") true false "#"%char 100%Z false None (Some (s2l e)) (Some []) (fun _ => false).

(** * Lemmas *)

Lemma ascii_eqb_true (a b : ascii) : Ascii.eqb a b = true <-> a = b.
Proof. apply Ascii.eqb_eq. Qed.

Lemma ascii_eqb_false (a b : ascii) : Ascii.eqb a b = false <-> a <> b.
Proof.
  split; intros H.
  - intros ->. rewrite Ascii.eqb_refl in H. discriminate.
  - destruct (Ascii.eqb a b) eqn:E; [apply ascii_eqb_true in E; contradiction | reflexivity].
Qed.

Lemma scan_mode_snoc (cm : ascii) (p : str) (c : ascii) :
  scan_mode cm (p ++ [c]) = mode_step cm (scan_mode cm p) c.
Proof. unfold scan_mode. rewrite fold_left_app. reflexivity. Qed.

(** A region is only ever opened by a character that was read. *)
Lemma fold_mode_origin (cm : ascii) (p : str) (mode : option ascii) (c : ascii) :
  fold_left (mode_step cm) p mode = Some c -> mode = Some c \/ In c p.
Proof.
  revert mode. induction p as [|d p IH]; intros mode H; simpl in *.
  - left; exact H.
  - apply IH in H. destruct H as [H | H]; [| right; right; exact H].
    unfold mode_step in H.
    destruct (is_special cm d); [| left; exact H].
    destruct mode as [m|].
    + destruct (Ascii.eqb m d); [discriminate | left; exact H].
    + injection H as ->. right; left; reflexivity.
Qed.

(** Inside a comment, characters other than the marker change nothing. *)
Lemma fold_mode_comment_stays (cm : ascii) (p : str) :
  ~ In cm p -> fold_left (mode_step cm) p (Some cm) = Some cm.
Proof.
  induction p as [|d p IH]; intros Hn; simpl; [reflexivity|].
  unfold mode_step at 2.
  assert (Hd : Ascii.eqb cm d = false) by (apply ascii_eqb_false; intros ->; apply Hn; left; reflexivity).
  rewrite Hd. destruct (is_special cm d); apply IH; intros Hi; apply Hn; right; exact Hi.
Qed.

Lemma py_contains_char_In (m : ascii) (s : str) :
  py_contains_char m s = true <-> In m s.
Proof.
  unfold py_contains_char. rewrite existsb_exists. split.
  - intros [x [Hx He]]. apply ascii_eqb_true in He. subst. exact Hx.
  - intros H. exists m. split; [exact H | apply Ascii.eqb_refl].
Qed.

(** The membership guard of line 171 never changes the decision. *)
Lemma inside_comment_iff (cm : ascii) (p : str) :
  inside_comment cm p = true <-> scan_mode cm p = Some cm.
Proof.
  unfold inside_comment. rewrite andb_true_iff, py_contains_char_In. split.
  - intros [_ H]. destruct (scan_mode cm p) as [x|]; simpl in H; [|discriminate].
    apply ascii_eqb_true in H. subst. reflexivity.
  - intros H. split.
    + unfold scan_mode in H. apply fold_mode_origin in H.
      destruct H as [H|H]; [discriminate | exact H].
    + rewrite H. apply Ascii.eqb_refl.
Qed.

Lemma match_line_comment_decision (string : str) (case : bool) (cm : ascii)
  (line : str) (pos : nat) :
  py_startswith (py_lstrip line) cm = false ->
  py_find (if negb case then py_lower line else line) string = Some pos ->
  match_line string case false cm line = None
  <-> scan_mode cm (firstn pos (if negb case then py_lower line else line)) = Some cm.
Proof.
  intros Hs Hf. unfold match_line. rewrite Hs. simpl. rewrite Hf.
  rewrite <- inside_comment_iff.
  destruct (inside_comment _ _); split; intros H; congruence.
Qed.

(** * Claims *)

(** C1 (the quote/comment state machine): [classifyPrefix] starts in [None] and reads the prefix left to
    right; a quote or the comment marker seen in [None] opens its region, the
    same character closes it again, any other special character inside a
    region does nothing, a character that is not special does nothing; once
    in [InComment] (mode [Some comment_marker]) only the marker leaves it;
    and, with comment inclusion off, the first occurrence on a line that is
    not a comment line is dropped exactly when the final state on the prefix
    before it is [InComment]. *)
Theorem classify_prefix_state_machine (cm : ascii) :
  scan_mode cm [] = None
  /\ (forall p c, scan_mode cm (p ++ [c]) = mode_step cm (scan_mode cm p) c)
  /\ (forall c, is_special cm c = true -> mode_step cm None c = Some c)
  /\ (forall c, is_special cm c = true -> mode_step cm (Some c) c = None)
  /\ (forall c m, is_special cm c = true -> m <> c -> mode_step cm (Some m) c = Some m)
  /\ (forall c mode, is_special cm c = false -> mode_step cm mode c = mode)
  /\ (forall c, c <> cm -> mode_step cm (Some cm) c = Some cm)
  /\ (forall p, ~ In cm p -> fold_left (mode_step cm) p (Some cm) = Some cm)
  /\ (forall p, inside_comment cm p = true <-> scan_mode cm p = Some cm)
  /\ (forall string case line pos,
        py_startswith (py_lstrip line) cm = false ->
        py_find (if negb case then py_lower line else line) string = Some pos ->
        (match_line string case false cm line = None
         <-> scan_mode cm (firstn pos (if negb case then py_lower line else line)) = Some cm)).
Proof.
  split; [reflexivity|].
  split; [apply scan_mode_snoc|].
  split; [intros c H; unfold mode_step; rewrite H; reflexivity|].
  split; [intros c H; unfold mode_step; rewrite H, Ascii.eqb_refl; reflexivity|].
  split; [intros c m H Hm; unfold mode_step; rewrite H;
          apply ascii_eqb_false in Hm; rewrite Hm; reflexivity|].
  split; [intros c mode H; unfold mode_step; rewrite H; reflexivity|].
  split; [intros c Hc; unfold mode_step;
          assert (E : Ascii.eqb cm c = false) by (apply ascii_eqb_false; congruence);
          rewrite E; destruct (is_special cm c); reflexivity|].
  split; [apply fold_mode_comment_stays|].
  split; [apply inside_comment_iff|].
  intros; apply match_line_comment_decision; assumption.
Qed.

(** C4 (quote-protected marker): on the line [x = "a # b"] with marker [#],
    searching for [b] with comment inclusion off gives exactly one
    occurrence: the marker before the match lies inside a double-quoted
    string, so the state on the prefix is [InDoubleQuote], not [InComment]. *)
Theorem quote_protected_marker :
  let line := s2l "x = " ++ [DQUOTE] ++ s2l "a # b" ++ [DQUOTE] in
  scan_mode "#"%char (firstn 9 line) = Some DQUOTE
  /\ match_line (s2l "b") true false "#"%char (line ++ [NL]) = Some (9, line ++ [NL])
  /\ global_search (search_cfg (s2l "b")) [mkFile (s2l "x.py") (line ++ [NL]) false]
     = (Found 1, []).
Proof. vm_compute. repeat split. Qed.

(** C7 (configuration rejection): a replacement string together with a
    case-insensitive search makes the invocation fail with the assertion of
    line 116 before any file is read, written or reported on: the output
    trace is empty. *)
Theorem replace_case_insensitive_rejected (cfg : config) (fs : list file) (r : str) :
  replace_with cfg = Some r -> case cfg = false ->
  global_search cfg fs = (AssertionError, []).
Proof. intros Hr Hc. unfold global_search. rewrite Hr, Hc. reflexivity. Qed.

Lemma replace_case_insensitive_rejected_witness :
  global_search (mkConfig (s2l "b") false false "#"%char 100%Z false (Some (s2l "c"))
                  None None (fun _ => false))
                [mkFile (s2l "x.py") (s2l "b") false]
  = (AssertionError, []).
Proof.
  apply (replace_case_insensitive_rejected _ _ (s2l "c")); reflexivity.
Defined.

(** C2 (occurrence count per line): the code adds one to the occurrence count
    per matching line, whatever the number of accepted occurrences on it.
    The line [y = b + b] holds two occurrences of [b], neither in a comment;
    the run reports one occurrence, while the rewrite of line 192 replaces
    both and the replace summary reports one replacement. *)
Theorem occurrences_counted_once_per_line :
  let line := s2l "y = b + b" ++ [NL] in
  py_find line (s2l "b") = Some 4
  /\ py_find (skipn 5 line) (s2l "b") = Some 3
  /\ inside_comment "#"%char (firstn 8 line) = false
  /\ global_search (search_cfg (s2l "b")) [mkFile (s2l "y.py") line false]
     = (Found 1, [])
  /\ global_search (mkConfig (s2l "b") true false "#"%char 100%Z false (Some (s2l "c"))
                     None None (fun _ => false)) [mkFile (s2l "y.py") line false]
     = (Replaced 1, [EvWrite (s2l "y.py") (s2l "y = c + c" ++ [NL])]).
Proof. vm_compute. repeat split. Qed.

(** ** Stripping *)

Lemma lstrip_by_app_all (p : ascii -> bool) (ws s : str) :
  forallb p ws = true -> lstrip_by p (ws ++ s) = lstrip_by p s.
Proof.
  induction ws as [|c ws IH]; simpl; [reflexivity|].
  intros H. apply andb_true_iff in H as [Hc Hws]. rewrite Hc. apply IH, Hws.
Qed.

Lemma lstrip_by_keep (p : ascii -> bool) (c : ascii) (s : str) :
  p c = false -> lstrip_by p (c :: s) = c :: s.
Proof. intros H. simpl. rewrite H. reflexivity. Qed.

Lemma lstrip_by_nil_iff (p : ascii -> bool) (s : str) :
  lstrip_by p s = [] <-> forallb p s = true.
Proof.
  induction s as [|c s IH]; simpl; [tauto|].
  destruct (p c); simpl; [exact IH | split; discriminate].
Qed.

Lemma lstrip_by_head (p : ascii -> bool) (s : str) (c : ascii) (s' : str) :
  lstrip_by p s = c :: s' -> p c = false.
Proof.
  induction s as [|d s IH]; simpl; [discriminate|].
  destruct (p d) eqn:Pd; [exact IH | intros Heq; injection Heq as -> _; exact Pd].
Qed.

Lemma strip_by_nil_iff (p : ascii -> bool) (s : str) :
  strip_by p s = [] <-> forallb p s = true.
Proof.
  unfold strip_by, rstrip_by. split.
  - intros H. destruct (lstrip_by p s) as [|c s'] eqn:E.
    + apply lstrip_by_nil_iff, E.
    + exfalso. pose proof (lstrip_by_head _ _ _ _ E) as Pc.
      assert (F : forallb p (rev (c :: s')) = false)
        by (simpl; rewrite forallb_app; simpl; rewrite Pc, andb_false_r; reflexivity).
      destruct (lstrip_by p (rev (c :: s'))) as [|d t] eqn:E2.
      * apply lstrip_by_nil_iff in E2. congruence.
      * apply (f_equal (@length ascii)) in H. rewrite length_rev in H. discriminate.
  - intros H. assert (E : lstrip_by p s = []) by (apply lstrip_by_nil_iff, H).
    rewrite E. reflexivity.
Qed.

Lemma forallb_rev (p : ascii -> bool) (l : str) : forallb p (rev l) = forallb p l.
Proof.
  induction l as [|c l IH]; simpl; [reflexivity|].
  rewrite forallb_app, IH. simpl. rewrite andb_true_r, andb_comm. reflexivity.
Qed.

Lemma py_strip_decomp (ws1 body ws2 : str) :
  forallb is_space ws1 = true -> forallb is_space ws2 = true ->
  edges_non_space body = true ->
  py_strip (ws1 ++ body ++ ws2) = body.
Proof.
  intros H1 H2 He. unfold py_strip, strip_by, rstrip_by.
  rewrite lstrip_by_app_all by exact H1.
  destruct body as [|c b'].
  - simpl. assert (E : lstrip_by is_space ws2 = []) by (apply lstrip_by_nil_iff, H2).
    rewrite E. reflexivity.
  - simpl in He. apply andb_true_iff in He as [Hc Hl].
    apply negb_true_iff in Hc, Hl.
    rewrite <- app_comm_cons, lstrip_by_keep by exact Hc.
    rewrite app_comm_cons, rev_app_distr, lstrip_by_app_all by (rewrite forallb_rev; exact H2).
    assert (Hne : c :: b' <> []) by discriminate.
    pose proof (app_removelast_last c Hne) as Hd.
    rewrite Hd, rev_app_distr. simpl.
    rewrite Hl. simpl. rewrite rev_involutive. reflexivity.
Qed.

(** C6 (blank, comment and code lines in statistics mode): write a line as
    [ws1 ++ body ++ ws2] with whitespace around a body that is empty or
    starts and ends with a non-whitespace character.  A line of whitespace
    only is blank; a line whose body is made of comment markers only is
    blank; a line whose body is the marker followed by some non-marker
    content is a comment line; a line whose body starts with another
    character is a code line.  [stats_line] is what the loop of line 150
    runs on each line in statistics mode. *)
Theorem stats_line_classification (cm : ascii) (ws1 body ws2 : str) (k : counters) :
  forallb is_space ws1 = true -> forallb is_space ws2 = true ->
  edges_non_space body = true ->
  (body = [] -> stats_line cm (ws1 ++ body ++ ws2) k = incr_empty k)
  /\ (body <> [] -> forallb (fun c => Ascii.eqb c cm) body = true ->
      stats_line cm (ws1 ++ body ++ ws2) k = incr_empty k)
  /\ (forall rest, body = cm :: rest ->
      existsb (fun c => negb (Ascii.eqb c cm)) rest = true ->
      stats_line cm (ws1 ++ body ++ ws2) k = incr_comments k)
  /\ (forall c rest, body = c :: rest -> c <> cm ->
      stats_line cm (ws1 ++ body ++ ws2) k = incr_code k).
Proof.
  intros H1 H2 He. unfold stats_line. rewrite py_strip_decomp by assumption.
  split; [intros ->; reflexivity|].
  split; [|split].
  - intros Hne Hall. destruct body as [|c rest]; [contradiction|].
    simpl in Hall. apply andb_true_iff in Hall as [Hc Hr].
    rewrite Hc. simpl.
    destruct (py_strip_chars cm (c :: rest)) eqn:E; [reflexivity|].
    exfalso. unfold py_strip_chars in E.
    assert (Hn : strip_by (fun c0 => Ascii.eqb c0 cm) (c :: rest) = []).
    { apply strip_by_nil_iff. simpl. rewrite Hc, Hr. reflexivity. }
    congruence.
  - intros rest -> Hex. rewrite Ascii.eqb_refl. simpl.
    destruct (py_strip_chars cm (cm :: rest)) eqn:E; [|reflexivity].
    exfalso. unfold py_strip_chars in E. apply strip_by_nil_iff in E.
    simpl in E. rewrite Ascii.eqb_refl in E. simpl in E.
    rewrite existsb_exists in Hex. destruct Hex as [x [Hx Hnx]].
    rewrite forallb_forall in E. specialize (E x Hx). rewrite E in Hnx. discriminate.
  - intros c rest -> Hc. apply ascii_eqb_false in Hc. rewrite Hc. reflexivity.
Qed.

Lemma stats_line_classification_witness :
  stats_line "#"%char (s2l "  " ++ s2l "# real comment" ++ [NL]) counters0
  = incr_comments counters0.
Proof.
  apply (proj1 (proj2 (proj2 (stats_line_classification "#"%char (s2l "  ")
           (s2l "# real comment") [NL] counters0 eq_refl eq_refl eq_refl)))
           (s2l " real comment")); reflexivity.
Defined.

(** ** The loops *)

Lemma writes_app (a b : list event) : writes (a ++ b) = writes a ++ writes b.
Proof. unfold writes. apply flat_map_app. Qed.

Lemma edit_step_state (cfg : config) (fn : str) (n : nat) (s s' : st) :
  edit_step cfg fn n s = EditOk s' \/ edit_step cfg fn n s = EditRaise s' ->
  cnt s' = cnt s /\ exists es, trace s' = trace s ++ es /\ writes es = [].
Proof.
  unfold edit_step.
  assert (Hid : cnt s = cnt s /\ exists es, trace s = trace s ++ es /\ writes es = [])
    by (split; [reflexivity|exists []; rewrite app_nil_r; split; reflexivity]).
  intros H.
  destruct (edit_with cfg) as [e|];
    [|destruct H as [H|H]; [injection H as <-; exact Hid | discriminate]].
  destruct (edit_result cfg) as [er|];
    [|destruct H as [H|H]; [injection H as <-; exact Hid | discriminate]].
  destruct (match er with [] => true | _ => _ end);
    [|destruct H as [H|H]; [injection H as <-; exact Hid | discriminate]].
  destruct (negb (py_in e SUPPORTED_EDITORS)).
  - simpl in H. destruct (command_var s) eqn:Ec; destruct H as [H|H]; try discriminate;
      injection H as <-; split; try reflexivity.
    + eexists; simpl; rewrite <- app_assoc; split; reflexivity.
    + exists [EvUnsupported e]. split; reflexivity.
  - destruct H as [H|H]; [|discriminate].
    injection H as <-. split; [reflexivity|]. eexists; split; reflexivity.
Qed.

Lemma edit_step_trace (cfg : config) (fn : str) (n : nat) (s s' : st) :
  edit_step cfg fn n s = EditOk s' ->
  cnt s' = cnt s /\ exists es, trace s' = trace s ++ es /\ writes es = [].
Proof. intros H. apply (edit_step_state cfg fn n). left. exact H. Qed.

Lemma scan_lines_app (cfg : config) (fn : str) (l1 l2 : list str) :
  forall n s lines res,
  scan_lines cfg fn n (l1 ++ l2) s lines res
  = match scan_lines cfg fn n l1 s lines res with
    | LDone s' lines' res' => scan_lines cfg fn (n + length l1) l2 s' lines' res'
    | o => o
    end.
Proof.
  induction l1 as [|x l1 IH]; intros n s lines res; simpl.
  - rewrite Nat.add_0_r. reflexivity.
  - replace (n + S (length l1)) with (S n + length l1) by lia.
    destruct (stats cfg); [apply IH|].
    destruct (match_line _ _ _ _ x) as [[pos x']|]; [|apply IH].
    destruct (edit_step _ _ _ _); [|reflexivity].
    destruct (_ <? _)%Z; [reflexivity | apply IH].
Qed.

Lemma scan_files_app (cfg : config) (f1 f2 : list file) :
  forall s,
  scan_files cfg (f1 ++ f2) s
  = match scan_files cfg f1 s with
    | FDone s' => scan_files cfg f2 s'
    | o => o
    end.
Proof.
  induction f1 as [|f f1 IH]; intros s; simpl; [reflexivity|].
  destruct (skip_path cfg (fname f)); [apply IH|].
  destruct (scan_lines _ _ _ _ _ _ _); [reflexivity | apply IH].
Qed.

Lemma scan_lines_trace (cfg : config) (fn : str) (ls : list str) :
  forall n s lines res,
  exists es, trace (line_outcome_state (scan_lines cfg fn n ls s lines res)) = trace s ++ es
             /\ writes es = [].
Proof.
  induction ls as [|x ls IH]; intros n s lines res; simpl.
  - exists []. rewrite app_nil_r. split; reflexivity.
  - destruct (stats cfg).
    + destruct (IH (S n) (upd_cnt (stats_line (comment_marker cfg) x) s)
                  (match replace_with cfg with Some _ => lines ++ [x] | None => lines end)
                  res) as [es [He Hw]].
      exists es. split; [exact He | exact Hw].
    + destruct (match_line _ _ _ _ x) as [[pos x']|];
        [| apply IH].
      destruct (edit_step _ _ _ _) as [s2|s2] eqn:Ee.
      * apply edit_step_trace in Ee as [_ [es1 [He1 Hw1]]].
        destruct (_ <? _)%Z.
        -- exists es1. simpl. rewrite He1. split; [reflexivity | exact Hw1].
        -- match goal with |- exists es, trace (line_outcome_state (scan_lines _ _ _ _ ?s0 ?l0 ?r0)) = _ /\ _ =>
             destruct (IH (S n) s0 l0 r0) as [es2 [He2 Hw2]] end.
           exists (es1 ++ es2). rewrite He2. simpl. rewrite He1, app_assoc.
           split; [reflexivity|]. rewrite writes_app, Hw1, Hw2. reflexivity.
      * destruct (edit_step_state _ _ _ _ _ (or_intror Ee)) as [_ [es1 [He1 Hw1]]].
        exists es1. simpl. rewrite He1. split; [reflexivity | exact Hw1].
Qed.

Lemma scan_lines_stats (cfg : config) (fn : str) (ls : list str) :
  stats cfg = true ->
  forall n s lines res,
  scan_lines cfg fn n ls s lines res
  = LDone (upd_cnt (fun k => fold_left (fun k l => stats_line (comment_marker cfg) l k) ls k) s)
          (lines ++ match replace_with cfg with Some _ => ls | None => [] end) res.
Proof.
  intros Hs. induction ls as [|x ls IH]; intros n s lines res; simpl.
  - destruct s, (replace_with cfg); rewrite app_nil_r; reflexivity.
  - rewrite Hs, IH. destruct (replace_with cfg); rewrite <- ?app_assoc; reflexivity.
Qed.

Lemma scan_files_stats (cfg : config) (fs : list file) :
  stats cfg = true ->
  forall s,
  scan_files cfg fs s
  = FDone (mkSt (stats_count (comment_marker cfg) (skip_path cfg) fs (cnt s))
                (command_var s) (trace s ++ decode_warnings (skip_path cfg) fs)).
Proof.
  intros Hs. induction fs as [|f fs IH]; intros s; simpl.
  - destruct s; rewrite app_nil_r; reflexivity.
  - destruct (skip_path cfg (fname f)).
    + rewrite IH. reflexivity.
    + rewrite scan_lines_stats by exact Hs. rewrite IH.
      destruct (fbad f); simpl; rewrite <- ?app_assoc; reflexivity.
Qed.

Lemma scan_lines_nomatch (cfg : config) (fn : str) (ls : list str) :
  stats cfg = false ->
  (forall l, In l ls ->
     match_line (string_ cfg) (case cfg) (include_comments cfg) (comment_marker cfg) l = None) ->
  forall n s lines res,
  scan_lines cfg fn n ls s lines res
  = LDone s (lines ++ match replace_with cfg with Some _ => ls | None => [] end) res.
Proof.
  intros Hs. induction ls as [|x ls IH]; intros Hn n s lines res; simpl.
  - destruct (replace_with cfg); rewrite app_nil_r; reflexivity.
  - rewrite Hs, Hn by (left; reflexivity).
    rewrite IH by (intros l Hl; apply Hn; right; exact Hl).
    destruct (replace_with cfg); rewrite <- ?app_assoc; reflexivity.
Qed.

Lemma scan_files_nomatch (cfg : config) (fs : list file) :
  stats cfg = false ->
  (forall f l, In f fs -> skip_path cfg (fname f) = false -> In l (read_lines (fdata f)) ->
     match_line (string_ cfg) (case cfg) (include_comments cfg) (comment_marker cfg) l = None) ->
  forall s, exists s',
  scan_files cfg fs s = FDone s'
  /\ occurrences (cnt s') = occurrences (cnt s)
  /\ exists es, trace s' = trace s ++ es /\ writes es = [].
Proof.
  intros Hs. induction fs as [|f fs IH]; intros Hn s; simpl.
  - exists s. split; [reflexivity|]. split; [reflexivity|].
    exists []. rewrite app_nil_r. split; reflexivity.
  - assert (Hn' : forall f' l, In f' fs -> skip_path cfg (fname f') = false -> In l (read_lines (fdata f')) ->
              match_line (string_ cfg) (case cfg) (include_comments cfg) (comment_marker cfg) l = None)
      by (intros f' l Hf Hk Hl; apply (Hn f' l); [right; exact Hf | exact Hk | exact Hl]).
    destruct (skip_path cfg (fname f)) eqn:Hk; [apply IH, Hn'|].
    rewrite scan_lines_nomatch
      by (first [exact Hs | intros l Hl; apply (Hn f l); [left; reflexivity | exact Hk | exact Hl]]).
    set (s1 := if fbad f then emit (EvDecodeError (fname f)) (upd_cnt incr_files s)
               else upd_cnt incr_files s).
    destruct (IH Hn' s1) as [s' [Hr [Ho [es [He Hw]]]]].
    exists s'. simpl. rewrite Hr. split; [reflexivity|].
    split; [rewrite Ho; unfold s1; destruct (fbad f); reflexivity|].
    unfold s1 in He. destruct (fbad f); simpl in He.
    + exists (EvDecodeError (fname f) :: es). rewrite He, <- app_assoc. split; [reflexivity|exact Hw].
    + exists es. split; [exact He | exact Hw].
Qed.

Lemma data_after_nowrite (f : file) (es : list event) :
  writes es = [] -> data_after f es = fdata f.
Proof.
  unfold data_after. generalize (fdata f) as d.
  induction es as [|e es IH]; intros d Hw; simpl; [reflexivity|].
  destruct e; simpl in Hw; try (apply IH; exact Hw). discriminate.
Qed.

(** C10 (empty search string), as corrected: when the search string is
    empty and the invocation is not rejected by the assertion of line 116
    (no replacement string, or a case-sensitive search), the run is in
    statistics mode whatever [stats] says: every line delivered for every
    file that is not skipped is classified by [stats_line], the statistics
    summary is returned, and the only output events are the decoding
    warnings: no editor launch and no rewrite. *)
Theorem empty_string_forces_stats (cfg : config) (fs : list file) :
  string_ cfg = [] ->
  (replace_with cfg = None \/ case cfg = true) ->
  global_search cfg fs
  = (let k := stats_count (comment_marker cfg) (skip_path cfg) fs counters0 in
     StatsSummary (code_lines_count k) (comments_lines_count k)
                  (empty_lines_count k) (files_count k),
     decode_warnings (skip_path cfg) fs).
Proof.
  intros Hs Hok.
  assert (Hrun : scan_files (prepare cfg) fs st0
                 = FDone (mkSt (stats_count (comment_marker cfg) (skip_path cfg) fs counters0)
                               None ([] ++ decode_warnings (skip_path cfg) fs))).
  { rewrite scan_files_stats by (simpl; rewrite Hs; reflexivity). reflexivity. }
  unfold global_search. rewrite Hrun.
  unfold final_result. simpl (stats (prepare cfg)). rewrite Hs.
  destruct (replace_with cfg); [|reflexivity].
  destruct Hok as [Hok|Hok]; [discriminate|]. rewrite Hok. reflexivity.
Qed.

Lemma empty_string_forces_stats_witness :
  global_search (mkConfig [] true false "#"%char 100%Z false None None None (fun _ => false))
                [mkFile (s2l "a.py") (s2l "# licence" ++ [NL] ++ s2l "x = 1" ++ [NL] ++ [NL]) false]
  = (StatsSummary 1 1 1 1, []).
Proof.
  rewrite empty_string_forces_stats; [vm_compute; reflexivity | reflexivity | left; reflexivity].
Defined.

(** C10 counterexample: an empty search string with a replacement string and
    a case-insensitive search is rejected by the assertion; no statistics
    summary is returned. *)
Lemma empty_string_rejected_with_replace :
  global_search (mkConfig [] false false "#"%char 100%Z true (Some (s2l "x")) None None
                  (fun _ => false))
                [mkFile (s2l "a.py") (s2l "x = 1" ++ [NL]) false]
  = (AssertionError, []).
Proof. reflexivity. Qed.

(** C8 (search for a string that is nowhere), as corrected: if the search
    string (lower-cased along with the lines for a case-insensitive search)
    occurs in no line of any file that is not skipped (skipped files may
    hold it), then every file keeps its content, in
    every configuration; and when moreover the search string is non-empty,
    statistics mode is off and the invocation is not rejected by the
    assertion of line 116, the run reports zero occurrences (or zero
    replacements). *)
Theorem absent_string_is_noop (cfg : config) (fs : list file) :
  (forall f l, In f fs -> skip_path cfg (fname f) = false -> In l (read_lines (fdata f)) ->
     py_find (if case cfg then l else py_lower l)
             (if case cfg then string_ cfg else py_lower (string_ cfg)) = None) ->
  (forall f, data_after f (snd (global_search cfg fs)) = fdata f)
  /\ (string_ cfg <> [] -> stats cfg = false ->
      (replace_with cfg = None \/ case cfg = true) ->
      fst (global_search cfg fs)
      = match replace_with cfg with None => Found 0 | Some _ => Replaced 0 end).
Proof.
  intros Habs.
  assert (Hm : forall f l, In f fs -> skip_path (prepare cfg) (fname f) = false ->
            In l (read_lines (fdata f)) ->
            match_line (string_ (prepare cfg)) (case (prepare cfg)) (include_comments (prepare cfg))
                       (comment_marker (prepare cfg)) l = None).
  { intros f l Hf Hk Hl. specialize (Habs f l Hf Hk Hl). unfold match_line; simpl.
    destruct (negb (include_comments cfg) && _); [reflexivity|].
    destruct (case cfg); simpl; rewrite Habs; reflexivity. }
  destruct (stats (prepare cfg)) eqn:Hst.
  - (* statistics mode *)
    assert (Hrun := scan_files_stats (prepare cfg) fs Hst st0).
    assert (Hw : writes (decode_warnings (skip_path cfg) fs) = []).
    { clear. induction fs as [|f fs IH]; [reflexivity|]. simpl.
      rewrite writes_app, IH. destruct (skip_path cfg (fname f)); [reflexivity|].
      destruct (fbad f); reflexivity. }
    unfold global_search. rewrite Hrun. simpl (trace _).
    split.
    + intros f. destruct (replace_with cfg); [destruct (case cfg)|];
        apply data_after_nowrite; assumption || reflexivity.
    + intros Hne Hs Hok. exfalso. simpl in Hst. rewrite Hs in Hst.
      destruct (string_ cfg); [contradiction | discriminate].
  - destruct (scan_files_nomatch (prepare cfg) fs Hst Hm st0) as [s' [Hr [Ho [es [He Hw]]]]].
    unfold global_search. rewrite Hr. simpl in He.
    split.
    + intros f. destruct (replace_with cfg); [destruct (case cfg)|];
        simpl; try reflexivity; apply data_after_nowrite; rewrite He; exact Hw.
    + intros _ _ Hok. unfold final_result. rewrite Hst, Ho.
      change (replace_with (prepare cfg)) with (replace_with cfg).
      destruct (replace_with cfg); [|reflexivity].
      destruct Hok as [Hok|Hok]; [discriminate|]. rewrite Hok. reflexivity.
Qed.

Lemma absent_string_is_noop_witness :
  let cfg := mkConfig (s2l "zzz") true false "#"%char 100%Z false (Some (s2l "y"))
               None None (fun p => str_eqb p (s2l "b.py")) in
  let fs := [mkFile (s2l "a.py") (s2l "x = 1" ++ [NL]) false;
             mkFile (s2l "b.py") (s2l "zzz" ++ [NL]) false] in
  data_after (mkFile (s2l "a.py") (s2l "x = 1" ++ [NL]) false) (snd (global_search cfg fs))
  = s2l "x = 1" ++ [NL]
  /\ data_after (mkFile (s2l "b.py") (s2l "zzz" ++ [NL]) false) (snd (global_search cfg fs))
     = s2l "zzz" ++ [NL]
  /\ fst (global_search cfg fs) = Replaced 0.
Proof.
  intros cfg fs.
  destruct (absent_string_is_noop cfg fs) as [H1 H2].
  - intros f l Hf Hk Hl. destruct Hf as [<-|[<-|[]]].
    + vm_compute in Hl. destruct Hl as [<-|[]]. reflexivity.
    + vm_compute in Hk. discriminate Hk.
  - split; [apply H1|]. split; [apply H1|].
    apply H2; [discriminate | reflexivity | right; reflexivity].
Defined.

(** C8 counterexample: with a search string found nowhere, the run does not
    report zero occurrences when a replacement string comes with a
    case-insensitive search (the assertion fails), when statistics mode is
    requested, or when the search string is empty (statistics mode). *)
Lemma absent_string_not_reported_as_zero :
  let fs := [mkFile (s2l "a.py") (s2l "x = 1" ++ [NL]) false] in
  global_search (mkConfig (s2l "zzz") false false "#"%char 100%Z false (Some (s2l "y"))
                  None None (fun _ => false)) fs = (AssertionError, [])
  /\ global_search (mkConfig (s2l "zzz") true false "#"%char 100%Z true None
                     None None (fun _ => false)) fs = (StatsSummary 1 0 0 1, [])
  /\ global_search (search_cfg []) [mkFile (s2l "b.py") [] false]
     = (StatsSummary 0 0 0 1, []).
Proof. vm_compute. repeat split. Qed.

Lemma final_result_not_truncated (cfg : config) (k : counters) :
  final_result cfg k <> Truncated.
Proof. unfold final_result. destruct (stats cfg), (replace_with cfg); discriminate. Qed.

Lemma global_search_truncated_prefix (cfg : config) (fs more : list file) :
  fst (global_search cfg fs) = Truncated ->
  global_search cfg (fs ++ more) = global_search cfg fs.
Proof.
  unfold global_search. rewrite scan_files_app.
  destruct (scan_files (prepare cfg) fs st0) as [r s|s] eqn:E.
  - intros _. reflexivity.
  - destruct (replace_with cfg); [destruct (case cfg)|]; simpl;
      intros H; try discriminate; exfalso; apply (final_result_not_truncated _ _ H).
Qed.

Lemma scan_lines_halts (cfg : config) (fn : str) (n : nat) (pre : list str) (line : str)
  (post : list str) (s : st) (lines : list str) (res : list (nat * nat))
  (s1 : st) (lines1 : list str) (res1 : list (nat * nat)) (pos : nat) (line' : str) (s2 : st) :
  stats cfg = false ->
  scan_lines cfg fn n pre s lines res = LDone s1 lines1 res1 ->
  match_line (string_ cfg) (case cfg) (include_comments cfg) (comment_marker cfg) line
    = Some (pos, line') ->
  edit_step cfg fn (n + length pre) (upd_cnt incr_occurrences s1) = EditOk s2 ->
  (maximum cfg < Z.of_nat (S (matching_lines (cnt s1))))%Z ->
  scan_lines cfg fn n (pre ++ line :: post) s lines res
  = LReturn Truncated (upd_cnt incr_matching s2).
Proof.
  intros Hs Hpre Hm He Hlt.
  rewrite scan_lines_app, Hpre. simpl. rewrite Hs, Hm, He.
  pose proof (edit_step_trace _ _ _ _ _ He) as [Hc _].
  simpl. rewrite Hc. simpl.
  apply Z.ltb_lt in Hlt. simpl in Hlt. rewrite Hlt. reflexivity.
Qed.

(** C5 (truncation): once the result is [Truncated], files added after the
    corpus change nothing (no further file is scanned); within a file, the
    matching line that takes the matching-line count above the maximum
    ends the scan with [Truncated], whatever lines follow it; and with a
    maximum of 2 on a corpus with five matching lines the run is truncated
    and behaves as a run on the first three matching lines, while two
    matching lines give the normal summary. *)
Theorem truncation_halts :
  (forall cfg fs more, fst (global_search cfg fs) = Truncated ->
     global_search cfg (fs ++ more) = global_search cfg fs)
  /\ (forall cfg fn n pre line post s lines res s1 lines1 res1 pos line' s2,
        stats cfg = false ->
        scan_lines cfg fn n pre s lines res = LDone s1 lines1 res1 ->
        match_line (string_ cfg) (case cfg) (include_comments cfg) (comment_marker cfg) line
          = Some (pos, line') ->
        edit_step cfg fn (n + length pre) (upd_cnt incr_occurrences s1) = EditOk s2 ->
        (maximum cfg < Z.of_nat (S (matching_lines (cnt s1))))%Z ->
        scan_lines cfg fn n (pre ++ line :: post) s lines res
        = LReturn Truncated (upd_cnt incr_matching s2))
  /\ global_search max2_cfg [five_b; other_b] = (Truncated, [])
  /\ global_search max2_cfg [five_b; other_b] = global_search max2_cfg [three_b]
  /\ global_search max2_cfg [two_b] = (Found 2, []).
Proof.
  split; [exact global_search_truncated_prefix|].
  split; [intros; eapply scan_lines_halts; eassumption|].
  vm_compute. repeat split.
Qed.

(** C9 (truncation in replace mode): when the limit is exceeded while a file
    is scanned in replace mode, the run returns [Truncated] from inside the
    loop over its lines: the rewrite of that file is never reached, so its
    buffered lines and results are dropped, and the output holds the output
    of the files scanned before (their rewrites included) followed by
    events that rewrite nothing. *)
Theorem truncation_skips_current_rewrite (cfg : config) (done : list file) (f : file)
  (more : list file) (r : str) (s1 s2 : st) :
  replace_with cfg = Some r -> case cfg = true ->
  scan_files (prepare cfg) done st0 = FDone s1 ->
  skip_path cfg (fname f) = false ->
  scan_lines (prepare cfg) (fname f) 0 (read_lines (fdata f)) (upd_cnt incr_files s1) [] []
    = LReturn Truncated s2 ->
  global_search cfg (done ++ f :: more) = (Truncated, trace s2)
  /\ exists es, trace s2 = trace s1 ++ es /\ writes es = [].
Proof.
  intros Hr Hc Hd Hsk Hl.
  split.
  - unfold global_search. rewrite Hr, Hc, scan_files_app, Hd. simpl.
    change (skip_path (prepare cfg)) with (skip_path cfg). rewrite Hsk, Hl. reflexivity.
  - destruct (scan_lines_trace (prepare cfg) (fname f) (read_lines (fdata f)) 0
                (upd_cnt incr_files s1) [] []) as [es [He Hw]].
    rewrite Hl in He. exists es. split; [exact He | exact Hw].
Qed.

Lemma truncation_skips_current_rewrite_witness :
  global_search replace_max1_cfg ([done_file] ++ [cut_file])
  = (Truncated, [EvWrite (s2l "a.py") (s2l "c" ++ [NL])]).
Proof.
  destruct (truncation_skips_current_rewrite replace_max1_cfg [done_file] cut_file [] (s2l "c")
              (match scan_files (prepare replace_max1_cfg) [done_file] st0 with
               | FDone s => s | FReturn _ s => s end)
              (line_outcome_state
                 (scan_lines (prepare replace_max1_cfg) (fname cut_file) 0
                    (read_lines (fdata cut_file))
                    (upd_cnt incr_files (match scan_files (prepare replace_max1_cfg) [done_file] st0 with
                                         | FDone s => s | FReturn _ s => s end)) [] [])))
    as [H _]; [reflexivity | reflexivity | vm_compute; reflexivity | reflexivity
               | vm_compute; reflexivity |].
  rewrite H. vm_compute. reflexivity.
Defined.

(** ** Substrings, [find] and [replace] *)

Lemma is_prefix_iff (p s : str) : is_prefix p s = true <-> exists v, s = p ++ v.
Proof.
  revert s. induction p as [|a p IH]; intros s; simpl.
  - split; [intros _; exists s; reflexivity | reflexivity].
  - destruct s as [|b s].
    + split; [discriminate | intros [v Hv]; discriminate].
    + rewrite andb_true_iff, ascii_eqb_true, IH. split.
      * intros [-> [v ->]]. exists v. reflexivity.
      * intros [v Hv]. injection Hv as -> ->. split; [reflexivity | exists v; reflexivity].
Qed.

Lemma find_from_sound (sub s : str) (i j : nat) :
  find_from sub s i = Some j -> exists u v, s = u ++ sub ++ v.
Proof.
  revert i. induction s as [|c s IH]; intros i; simpl.
  - destruct (is_prefix sub []) eqn:E; [|discriminate].
    intros _. apply is_prefix_iff in E as [v Hv]. exists [], v. exact Hv.
  - destruct (is_prefix sub (c :: s)) eqn:E.
    + intros _. apply is_prefix_iff in E as [v Hv]. exists [], v. exact Hv.
    + intros H. apply IH in H as [u [v ->]]. exists (c :: u), v. reflexivity.
Qed.

Lemma find_from_unfold (sub s : str) (i : nat) :
  find_from sub s i
  = if is_prefix sub s then Some i
    else match s with [] => None | _ :: s' => find_from sub s' (S i) end.
Proof. destruct s; reflexivity. Qed.

Lemma find_from_complete (sub u v : str) (i : nat) :
  find_from sub (u ++ sub ++ v) i <> None.
Proof.
  revert i. induction u as [|c u IH]; intros i; simpl.
  - assert (E : is_prefix sub (sub ++ v) = true)
      by (apply is_prefix_iff; exists v; reflexivity).
    rewrite find_from_unfold, E. discriminate.
  - destruct (is_prefix sub (c :: u ++ sub ++ v)); [discriminate | apply IH].
Qed.

Lemma py_find_none_iff (x sub : str) :
  py_find x sub = None <-> ~ exists u v, x = u ++ sub ++ v.
Proof.
  unfold py_find. split.
  - intros H [u [v ->]]. exact (find_from_complete sub u v 0 H).
  - intros H. destruct (find_from sub x 0) as [j|] eqn:E; [|reflexivity].
    exfalso. apply H. exact (find_from_sound _ _ _ _ E).
Qed.

Lemma is_prefix_snoc_nl (p x : str) :
  ~ In NL p -> p <> [] -> is_prefix p (x ++ [NL]) = is_prefix p x.
Proof.
  revert x. induction p as [|a p IH]; intros x Hn Hne; [contradiction|].
  destruct x as [|b x]; simpl.
  - assert (E : Ascii.eqb a NL = false) by (apply ascii_eqb_false; intros ->; apply Hn; left; reflexivity).
    rewrite E. reflexivity.
  - destruct p as [|a' p'].
    + destruct (x ++ [NL]), x; reflexivity.
    + rewrite IH; [reflexivity | intros Hi; apply Hn; right; exact Hi | discriminate].
Qed.

Lemma is_prefix_length (p x : str) : is_prefix p x = true -> length p <= length x.
Proof.
  intros H. apply is_prefix_iff in H as [v ->]. rewrite length_app. lia.
Qed.

(** Replacing a string without line break leaves the final "\n" alone. *)
Lemma replace_aux_snoc_nl (old new : str) (k : nat) (a : str) :
  old <> [] -> ~ In NL old -> k <= length a ->
  replace_aux old new k (a ++ [NL]) = replace_aux old new k a ++ [NL].
Proof.
  intros Hne Hn. revert k. induction a as [|c a IH]; intros k Hk; simpl.
  - assert (k = 0) by (simpl in Hk; lia). subst k.
    destruct old as [|o old']; [contradiction|]. simpl.
    assert (E : Ascii.eqb o NL = false) by (apply ascii_eqb_false; intros ->; apply Hn; left; reflexivity).
    rewrite E. reflexivity.
  - destruct k as [|k].
    + change (c :: a ++ [NL]) with ((c :: a) ++ [NL]).
      rewrite (is_prefix_snoc_nl old (c :: a)) by assumption.
      destruct (is_prefix old (c :: a)) eqn:E.
      * apply is_prefix_length in E. simpl in E.
        rewrite IH by lia. rewrite app_assoc. reflexivity.
      * rewrite IH by lia. reflexivity.
    + simpl in Hk. apply IH. lia.
Qed.

Lemma py_replace_snoc_nl (a old new : str) :
  old <> [] -> ~ In NL old ->
  py_replace (a ++ [NL]) old new = py_replace a old new ++ [NL].
Proof.
  intros Hne Hn. unfold py_replace. destruct old as [|o old']; [contradiction|].
  apply replace_aux_snoc_nl; [assumption | assumption | lia].
Qed.

(** ** Universal newlines and line splitting *)

Lemma str_len_ind (P : str -> Prop) :
  (forall x, (forall y, length y < length x -> P y) -> P x) -> forall x, P x.
Proof.
  intros H x. assert (G : forall n y, length y <= n -> P y).
  { induction n as [|n IH]; intros y Hy; apply H; intros z Hz; [lia|]. apply IH. lia. }
  apply (G (length x)). lia.
Qed.

Lemma NL_not_CR : Ascii.eqb NL CR = false.
Proof. reflexivity. Qed.

Lemma translate_no_cr (d : str) : ~ In CR d -> translate_newlines d = d.
Proof.
  induction d as [|c d IH]; intros Hn; simpl; [reflexivity|].
  assert (E : Ascii.eqb c CR = false) by (apply ascii_eqb_false; intros ->; apply Hn; left; reflexivity).
  rewrite E, IH; [reflexivity | intros Hi; apply Hn; right; exact Hi].
Qed.

Lemma translate_app_no_cr (a b : str) :
  ~ In CR a -> translate_newlines (a ++ b) = a ++ translate_newlines b.
Proof.
  induction a as [|c a IH]; intros Hn; simpl; [reflexivity|].
  assert (E : Ascii.eqb c CR = false) by (apply ascii_eqb_false; intros ->; apply Hn; left; reflexivity).
  rewrite E, IH; [reflexivity | intros Hi; apply Hn; right; exact Hi].
Qed.

Lemma translate_split_nl (x rest : str) :
  translate_newlines (x ++ NL :: rest)
  = translate_newlines (x ++ [NL]) ++ translate_newlines rest.
Proof.
  revert x. apply str_len_ind. intros x IH.
  destruct x as [|c x]; simpl.
  - reflexivity.
  - destruct (Ascii.eqb c CR).
    + destruct x as [|d x]; simpl; [reflexivity|].
      destruct (Ascii.eqb d NL).
      * rewrite (IH x) by (simpl; lia). reflexivity.
      * pose proof (IH (d :: x) ltac:(simpl; lia)) as E. simpl in E.
        rewrite E. reflexivity.
    + rewrite (IH x) by (simpl; lia). reflexivity.
Qed.

Lemma translate_ends_nl (x : str) :
  exists z, translate_newlines (x ++ [NL]) = z ++ [NL].
Proof.
  revert x. apply str_len_ind. intros x IH.
  destruct x as [|c x]; simpl.
  - exists []. reflexivity.
  - destruct (Ascii.eqb c CR).
    + destruct x as [|d x]; simpl; [exists []; reflexivity|].
      destruct (Ascii.eqb d NL).
      * destruct (IH x) as [z Hz]; [simpl; lia|]. rewrite Hz. exists (NL :: z). reflexivity.
      * destruct (IH (d :: x)) as [z Hz]; [simpl; lia|].
        simpl in Hz. rewrite Hz. exists (NL :: z). reflexivity.
    + destruct (IH x) as [z Hz]; [simpl; lia|]. rewrite Hz. exists (c :: z). reflexivity.
Qed.

(** A stretch without line break of the translated text is already in the
    text before translation. *)
Lemma translate_prefix (d w v : str) :
  translate_newlines d = w ++ v -> ~ In NL w -> exists v', d = w ++ v'.
Proof.
  revert d. induction w as [|a w IH]; intros d H Hn; [exists d; reflexivity|].
  destruct d as [|c d]; simpl in H; [discriminate|].
  destruct (Ascii.eqb c CR) eqn:Ec.
  - exfalso. destruct d as [|e d]; [|destruct (Ascii.eqb e NL)];
      injection H as Ha _; apply Hn; left; exact (eq_sym Ha).
  - injection H as -> H. apply IH in H as [v' ->]; [|intros Hi; apply Hn; right; exact Hi].
    exists v'. reflexivity.
Qed.

Lemma translate_piece (d u w v : str) :
  translate_newlines d = u ++ w ++ v -> w <> [] -> ~ In NL w ->
  exists u' v', d = u' ++ w ++ v'.
Proof.
  revert d u. apply (str_len_ind (fun d => forall u, translate_newlines d = u ++ w ++ v ->
                      w <> [] -> ~ In NL w -> exists u' v', d = u' ++ w ++ v')).
  intros d IH u H Hne Hn.
  destruct u as [|b u].
  - simpl in H. apply translate_prefix in H as [v' ->]; [|exact Hn]. exists [], v'. reflexivity.
  - destruct d as [|c d]; simpl in H; [discriminate|].
    destruct (Ascii.eqb c CR) eqn:Ec.
    + destruct d as [|e d].
      * exfalso. injection H as _ H. destruct u, w; simpl in H; discriminate || contradiction.
      * destruct (Ascii.eqb e NL) eqn:Ee.
        -- injection H as _ H. apply IH in H as [u' [v' ->]]; [|simpl; lia | exact Hne | exact Hn].
           exists (c :: e :: u'), v'. reflexivity.
        -- injection H as _ H. change (translate_newlines (e :: d) = u ++ w ++ v) in H.
           apply IH in H as [u' [v' Hd]]; [|simpl; lia | exact Hne | exact Hn].
           exists (c :: u'), v'. rewrite Hd. reflexivity.
    + injection H as _ H. apply IH in H as [u' [v' ->]]; [|simpl; lia | exact Hne | exact Hn].
      exists (c :: u'), v'. reflexivity.
Qed.

Lemma concat_split_aux (cur y : str) :
  List.concat (split_lines_aux cur y) = rev cur ++ y.
Proof.
  revert cur. induction y as [|c y IH]; intros cur; simpl.
  - destruct cur; simpl; rewrite ?app_nil_r; reflexivity.
  - destruct (Ascii.eqb c NL) eqn:E.
    + simpl. rewrite IH, <- app_assoc. apply ascii_eqb_true in E. subst. reflexivity.
    + rewrite IH. simpl. rewrite <- app_assoc. reflexivity.
Qed.

Lemma lines_ok_cons (x : str) (ls : list str) :
  nl_line x -> lines_ok ls -> lines_ok (x :: ls).
Proof.
  intros Hx [H | [ls' [z [-> [H1 H2]]]]].
  - left. constructor; assumption.
  - right. exists (x :: ls'), z. split; [reflexivity|]. split; [constructor; assumption | exact H2].
Qed.

Lemma split_aux_ok (cur y : str) : ~ In NL cur -> lines_ok (split_lines_aux cur y).
Proof.
  revert cur. induction y as [|c y IH]; intros cur Hn; simpl.
  - destruct cur as [|d cur].
    + left. constructor.
    + right. exists [], (rev (d :: cur)). split; [reflexivity|]. split; [constructor|].
      split; [intros H; apply (f_equal (@length ascii)) in H; rewrite length_rev in H; discriminate|].
      rewrite <- in_rev. exact Hn.
  - destruct (Ascii.eqb c NL) eqn:E.
    + apply lines_ok_cons; [|apply IH; intros []].
      apply ascii_eqb_true in E. subst. exists (rev cur). simpl.
      split; [reflexivity|]. rewrite <- in_rev. exact Hn.
    + apply IH. intros [H|H]; [|contradiction]. subst. rewrite Ascii.eqb_refl in E. discriminate.
Qed.

Lemma split_aux_nl (cur a rest : str) :
  ~ In NL a ->
  split_lines_aux cur (a ++ NL :: rest) = (rev cur ++ a ++ [NL]) :: split_lines_aux [] rest.
Proof.
  revert cur. induction a as [|c a IH]; intros cur Hn; cbn [split_lines_aux app].
  - rewrite Ascii.eqb_refl. reflexivity.
  - assert (E : Ascii.eqb c NL = false) by (apply ascii_eqb_false; intros ->; apply Hn; left; reflexivity).
    rewrite E, IH by (intros H; apply Hn; right; exact H). cbn [rev]. rewrite <- app_assoc. reflexivity.
Qed.

Lemma split_aux_last (cur z : str) :
  ~ In NL z -> rev cur ++ z <> [] -> split_lines_aux cur z = [rev cur ++ z].
Proof.
  revert cur. induction z as [|c z IH]; intros cur Hn Hne; simpl.
  - destruct cur; [rewrite app_nil_r in Hne; simpl in Hne; contradiction|].
    rewrite app_nil_r. reflexivity.
  - assert (E : Ascii.eqb c NL = false) by (apply ascii_eqb_false; intros ->; apply Hn; left; reflexivity).
    rewrite E, IH.
    + simpl. rewrite <- app_assoc. reflexivity.
    + intros H; apply Hn; right; exact H.
    + simpl. rewrite <- app_assoc. simpl. intros H. apply app_eq_nil in H as [_ H]. discriminate.
Qed.

Lemma split_concat_nl (pre : list str) (x : str) :
  Forall nl_line pre -> split_lines (List.concat pre ++ x) = pre ++ split_lines x.
Proof.
  induction pre as [|y pre IH]; intros H; [reflexivity|].
  inversion H as [|? ? [a [-> Ha]] Hpre]; subst.
  simpl. unfold split_lines. rewrite <- !app_assoc. simpl.
  rewrite split_aux_nl by exact Ha. simpl. f_equal. apply IH, Hpre.
Qed.

Lemma split_concat (ls : list str) : lines_ok ls -> split_lines (List.concat ls) = ls.
Proof.
  intros [H | [ls' [z [-> [H1 [H2 H3]]]]]].
  - rewrite <- (app_nil_r (List.concat ls)), split_concat_nl by exact H.
    rewrite app_nil_r. reflexivity.
  - rewrite concat_app, split_concat_nl by exact H1. simpl. rewrite app_nil_r.
    unfold split_lines. rewrite split_aux_last by (simpl; assumption). reflexivity.
Qed.

Lemma split_aux_app_nl (cur a b : str) :
  split_lines_aux cur (a ++ NL :: b) = split_lines_aux cur (a ++ [NL]) ++ split_lines_aux [] b.
Proof.
  revert cur. induction a as [|c a IH]; intros cur; cbn [split_lines_aux app].
  - rewrite Ascii.eqb_refl. reflexivity.
  - destruct (Ascii.eqb c NL); rewrite IH; reflexivity.
Qed.

Lemma split_aux_piece (cur y x : str) :
  In x (split_lines_aux cur y) -> exists u v, rev cur ++ y = u ++ x ++ v.
Proof.
  revert cur. induction y as [|c y IH]; intros cur H; simpl in H.
  - destruct cur as [|d cur]; [contradiction|].
    destruct H as [<-|[]]. exists [], []. rewrite !app_nil_r. reflexivity.
  - destruct (Ascii.eqb c NL) eqn:E.
    + destruct H as [<-|H].
      * exists [], y. simpl. rewrite <- app_assoc. reflexivity.
      * apply IH in H as [u [v Hy]]. simpl in Hy. subst y.
        exists (rev cur ++ c :: u), v. rewrite <- app_assoc. reflexivity.
    + apply IH in H as [u [v Hy]]. exists u, v. rewrite <- Hy. simpl. rewrite <- app_assoc. reflexivity.
Qed.

Lemma lines_ok_split (pre post : list str) (l : str) :
  lines_ok (pre ++ l :: post) ->
  Forall nl_line pre /\ (nl_line l \/ (post = [] /\ ~ In NL l)) /\ lines_ok post.
Proof.
  intros [H | [ls' [z [Heq [H1 [H2 H3]]]]]].
  - apply Forall_app in H as [Hp Hl]. inversion Hl; subst.
    split; [assumption|]. split; [left; assumption | left; assumption].
  - destruct post as [|p0 post0].
    + apply app_inj_tail in Heq as [-> ->].
      split; [exact H1|]. split; [right; split; [reflexivity | exact H3] | left; constructor].
    + destruct (@exists_last _ (p0 :: post0)) as [post [p Hpp]]; [discriminate|].
      rewrite Hpp in *. rewrite app_comm_cons, app_assoc in Heq.
      apply app_inj_tail in Heq as [<- <-].
      apply Forall_app in H1 as [Hp Hl]. inversion Hl; subst.
      split; [assumption|]. split; [left; assumption|].
      right. exists post, p. split; [reflexivity|]. split; [assumption|]. split; assumption.
Qed.

Lemma read_lines_concat (data : str) :
  ~ In CR data -> List.concat (read_lines data) = data.
Proof.
  intros Hn. unfold read_lines, split_lines. rewrite concat_split_aux, translate_no_cr by exact Hn.
  reflexivity.
Qed.

Lemma read_lines_ok (data : str) : lines_ok (read_lines data).
Proof. apply split_aux_ok. intros []. Qed.

Lemma reread_lines (pre post : list str) (l l2 : str) :
  lines_ok (pre ++ l :: post) -> ~ In CR (List.concat pre) -> ~ In CR (List.concat post) ->
  (nl_line l -> exists b, l2 = b ++ [NL]) ->
  read_lines (List.concat pre ++ l2 ++ List.concat post)
  = pre ++ split_lines (translate_newlines l2) ++ post.
Proof.
  intros Hok Hpre Hpost Hl2. destruct (lines_ok_split _ _ _ Hok) as [Hp [Hl Hq]].
  unfold read_lines. rewrite translate_app_no_cr by exact Hpre.
  rewrite split_concat_nl by exact Hp. f_equal.
  destruct Hl as [Hl | [-> _]].
  - destruct (Hl2 Hl) as [b ->]. rewrite <- app_assoc.
    change ([NL] ++ List.concat post) with (NL :: List.concat post).
    rewrite translate_split_nl, (translate_no_cr (List.concat post)) by exact Hpost.
    destruct (translate_ends_nl b) as [z Hz]. rewrite Hz, <- app_assoc.
    change ([NL] ++ List.concat post) with (NL :: List.concat post).
    unfold split_lines. rewrite split_aux_app_nl. f_equal. apply split_concat, Hq.
  - simpl. rewrite !app_nil_r. reflexivity.
Qed.

Lemma split_translate_no_occurrence (l2 s x : str) :
  s <> [] -> ~ In NL s -> py_find l2 s = None ->
  In x (split_lines (translate_newlines l2)) -> py_find x s = None.
Proof.
  intros Hne Hn Hf Hx. apply py_find_none_iff. intros [u [v ->]].
  apply split_aux_piece in Hx as [u0 [v0 Hx]]. simpl in Hx.
  rewrite <- !app_assoc in Hx. rewrite app_assoc in Hx.
  destruct (translate_piece l2 (u0 ++ u) s (v ++ v0) Hx Hne Hn) as [u' [v' Hl2]].
  apply py_find_none_iff in Hf. apply Hf. exists u', v'. exact Hl2.
Qed.

Lemma data_after_last_write (f : file) (es : list event) (d : str) :
  data_after f (es ++ [EvWrite (fname f) d]) = d.
Proof.
  unfold data_after. rewrite fold_left_app. simpl. unfold str_eqb.
  destruct (list_eq_dec ascii_dec (fname f) (fname f)) as [_|C]; [reflexivity|].
  exfalso. apply C. reflexivity.
Qed.

Lemma match_line_case_true (string : str) (ic : bool) (cm : ascii) (l l' : str) (pos : nat) :
  match_line string true ic cm l = Some (pos, l') -> l' = l.
Proof.
  unfold match_line. simpl.
  destruct (negb ic && py_startswith (py_lstrip l) cm); [discriminate|].
  destruct (py_find l string); [|discriminate].
  destruct (negb ic && _); [discriminate|]. intros H. injection H as _ <-. reflexivity.
Qed.

Lemma edit_step_editor_ok (cfg : config) (fn : str) (n : nat) (s : st) :
  editor_ok cfg = true -> exists s', edit_step cfg fn n s = EditOk s'.
Proof.
  unfold editor_ok, edit_step. intros H.
  destruct (edit_with cfg) as [e|]; [|eexists; reflexivity].
  destruct (edit_result cfg) as [er|]; [|eexists; reflexivity].
  rewrite H. simpl. destruct (match er with [] => true | _ => _ end); eexists; reflexivity.
Qed.

Lemma scan_lines_one_match (cfg : config) (fn : str) (pre post : list str) (l l' r : str)
  (pos n : nat) (s : st) (lines : list str) (res : list (nat * nat)) :
  stats cfg = false -> replace_with cfg = Some r -> editor_ok cfg = true ->
  (forall x, In x pre \/ In x post ->
     match_line (string_ cfg) (case cfg) (include_comments cfg) (comment_marker cfg) x = None) ->
  match_line (string_ cfg) (case cfg) (include_comments cfg) (comment_marker cfg) l = Some (pos, l') ->
  (Z.of_nat (S (matching_lines (cnt s))) <= maximum cfg)%Z ->
  exists s' res',
    scan_lines cfg fn n (pre ++ l :: post) s lines res
    = LDone s' (lines ++ pre ++ py_replace l' (string_ cfg) r :: post) res'
    /\ res' <> []
    /\ occurrences (cnt s') = S (occurrences (cnt s))
    /\ exists es, trace s' = trace s ++ es /\ writes es = [].
Proof.
  intros Hs Hr He Hother Hl Hmax.
  rewrite scan_lines_app, scan_lines_nomatch
    by (first [exact Hs | intros x Hx; apply Hother; left; exact Hx]).
  rewrite Hr. cbn [scan_lines]. rewrite Hr, Hs, Hl.
  unfold set_last. rewrite !app_assoc, removelast_last.
  destruct (edit_step_editor_ok cfg fn (n + length pre) (upd_cnt incr_occurrences s) He)
    as [s3 Hs3].
  rewrite Hs3. destruct (edit_step_trace _ _ _ _ _ Hs3) as [Hc3 [es1 [Ht1 Hw1]]].
  assert (Hlt : (maximum cfg <? Z.of_nat (matching_lines (cnt (upd_cnt incr_matching s3))))%Z = false).
  { apply Z.ltb_ge. unfold upd_cnt. simpl. rewrite Hc3. simpl. exact Hmax. }
  rewrite Hlt, scan_lines_nomatch
    by (first [exact Hs | intros x Hx; apply Hother; right; exact Hx]).
  rewrite Hr. eexists; eexists. split.
  - rewrite <- !app_assoc. reflexivity.
  - split; [intros H; apply app_eq_nil in H as [_ H]; discriminate|].
    split.
    + unfold upd_cnt. simpl. rewrite Hc3. reflexivity.
    + exists es1. unfold upd_cnt. simpl. split; [exact Ht1 | exact Hw1].
Qed.

(** C3 (replace roundtrip, as the code has it).  Take a case-sensitive
    replace run (statistics mode off, a non-empty search string, a maximum
    of at least one, no unsupported editor requested) over one file that is
    not skipped, decodes, and holds no carriage return, and whose lines read
    back are [pre ++ l :: post] with [l] the only matching line.  The run
    reports one replacement, and the file becomes the lines of [pre], then
    [l] with every occurrence replaced ([str.replace]), then the lines of
    [post], all byte-identical.  If moreover the search string holds no
    newline and the replaced line no longer contains it, searching the
    rewritten file again for the same string reports zero occurrences. *)
Theorem replace_roundtrip (cfg : config) (name data : str) (pre post : list str)
  (l l' r : str) (pos : nat) :
  replace_with cfg = Some r -> case cfg = true -> stats cfg = false -> string_ cfg <> [] ->
  (1 <= maximum cfg)%Z -> skip_path cfg name = false -> editor_ok cfg = true ->
  ~ In CR data ->
  read_lines data = pre ++ l :: post ->
  match_line (string_ cfg) true (include_comments cfg) (comment_marker cfg) l = Some (pos, l') ->
  (forall x, In x pre \/ In x post ->
     match_line (string_ cfg) true (include_comments cfg) (comment_marker cfg) x = None) ->
  fst (global_search cfg [mkFile name data false]) = Replaced 1
  /\ data = List.concat pre ++ l ++ List.concat post
  /\ data_after (mkFile name data false) (snd (global_search cfg [mkFile name data false]))
     = List.concat pre ++ py_replace l (string_ cfg) r ++ List.concat post
  /\ (~ In NL (string_ cfg) -> py_find (py_replace l (string_ cfg) r) (string_ cfg) = None ->
      fst (global_search (without_replace cfg)
             [mkFile name (data_after (mkFile name data false)
                             (snd (global_search cfg [mkFile name data false]))) false])
      = Found 0).
Proof.
  intros Hr Hc Hst Hne Hmax Hsk He Hcr Hread Hl Hother.
  pose proof (match_line_case_true _ _ _ _ _ _ Hl) as E. subst l'.
  assert (Hsp : string_ (prepare cfg) = string_ cfg) by (simpl; rewrite Hc; reflexivity).
  assert (Hpc : stats (prepare cfg) = false)
    by (simpl; destruct (string_ cfg); [contradiction | exact Hst]).
  assert (Hm : forall x,
             match_line (string_ (prepare cfg)) (case (prepare cfg)) (include_comments (prepare cfg))
               (comment_marker (prepare cfg)) x
             = match_line (string_ cfg) true (include_comments cfg) (comment_marker cfg) x).
  { intros x. rewrite Hsp. change (case (prepare cfg)) with (case cfg). rewrite Hc. reflexivity. }
  destruct (scan_lines_one_match (prepare cfg) name pre post l l r pos 0
              (upd_cnt incr_files st0) [] [] Hpc Hr He)
    as [s' [res' [Hscan [Hres [Hocc _]]]]].
  { intros x Hx. rewrite Hm. apply Hother, Hx. }
  { rewrite Hm. exact Hl. }
  { simpl. exact Hmax. }
  rewrite Hsp in Hscan.
  set (nd := List.concat pre ++ py_replace l (string_ cfg) r ++ List.concat post).
  assert (Hrun : scan_files (prepare cfg) [mkFile name data false] st0
                 = FDone (emit (EvWrite name nd) s')).
  { cbn [scan_files fname fdata fbad]. change (skip_path (prepare cfg)) with (skip_path cfg).
    rewrite Hsk, Hread, Hscan. change (replace_with (prepare cfg)) with (replace_with cfg).
    rewrite Hr. destruct res' as [|x res']; [contradiction|]. simpl.
    unfold write_lines, nd. rewrite concat_app. reflexivity. }
  assert (Hdata : data = List.concat pre ++ l ++ List.concat post).
  { rewrite <- (read_lines_concat data Hcr), Hread, concat_app. reflexivity. }
  assert (Hafter : data_after (mkFile name data false) (snd (global_search cfg [mkFile name data false]))
                   = nd).
  { unfold global_search. rewrite Hr, Hc, Hrun. simpl (snd _).
    exact (data_after_last_write (mkFile name data false) (trace s') nd). }
  split; [|split; [exact Hdata | split; [exact Hafter|]]].
  - unfold global_search. rewrite Hr, Hc, Hrun. unfold final_result. rewrite Hpc.
    change (replace_with (prepare cfg)) with (replace_with cfg). rewrite Hr.
    simpl. rewrite Hocc. reflexivity.
  - intros Hnl Hfind. rewrite Hafter.
    assert (Hpre : ~ In CR (List.concat pre))
      by (intros H; apply Hcr; rewrite Hdata; apply in_or_app; left; exact H).
    assert (Hpost : ~ In CR (List.concat post))
      by (intros H; apply Hcr; rewrite Hdata; apply in_or_app; right; apply in_or_app; right; exact H).
    assert (Hok : lines_ok (pre ++ l :: post)) by (rewrite <- Hread; apply read_lines_ok).
    assert (Hre : read_lines nd
                  = pre ++ split_lines (translate_newlines (py_replace l (string_ cfg) r)) ++ post).
    { unfold nd. apply (reread_lines pre post l); [exact Hok | exact Hpre | exact Hpost |].
      intros [a [-> _]]. exists (py_replace a (string_ cfg) r).
      apply py_replace_snoc_nl; assumption. }
    set (cfg' := without_replace cfg).
    assert (Hpc' : stats (prepare cfg') = false)
      by (simpl; destruct (string_ cfg); [contradiction | exact Hst]).
    destruct (scan_files_nomatch (prepare cfg') [mkFile name nd false] Hpc') with (s := st0)
      as [s'' [Hr'' [Ho'' _]]].
    { intros f x [<-|[]] _ Hx. simpl in Hx. rewrite Hre in Hx.
      change (match_line (string_ (prepare cfg)) (case (prepare cfg))
                (include_comments (prepare cfg)) (comment_marker (prepare cfg)) x
              = None).
      apply in_app_iff in Hx as [Hx | Hx]; [rewrite Hm; apply Hother; left; exact Hx|].
      apply in_app_iff in Hx as [Hx | Hx]; [|rewrite Hm; apply Hother; right; exact Hx].
      rewrite Hm. unfold match_line. simpl.
      destruct (negb (include_comments cfg) && _); [reflexivity|].
      rewrite (split_translate_no_occurrence _ _ _ Hne Hnl Hfind Hx). reflexivity. }
    unfold global_search. simpl (replace_with cfg'). rewrite Hr''.
    unfold final_result. rewrite Hpc'. simpl. rewrite Ho''. reflexivity.
Qed.

Lemma replace_roundtrip_witness :
  fst (global_search (rcfg "b" "c" 100) [afile rt_data false]) = Replaced 1
  /\ data_after (afile rt_data false) (snd (global_search (rcfg "b" "c" 100) [afile rt_data false]))
     = s2l "a" ++ [NL] ++ s2l "c + c" ++ [NL] ++ s2l "d" ++ [NL]
  /\ fst (global_search (without_replace (rcfg "b" "c" 100))
            [afile (data_after (afile rt_data false)
                      (snd (global_search (rcfg "b" "c" 100) [afile rt_data false]))) false])
     = Found 0.
Proof.
  destruct (replace_roundtrip (rcfg "b" "c" 100) (s2l "a.py") rt_data
              [s2l "a" ++ [NL]] [s2l "d" ++ [NL]] (s2l "b + b" ++ [NL]) (s2l "b + b" ++ [NL])
              (s2l "c") 0)
    as [H1 [_ [H3 H4]]].
  - reflexivity.
  - reflexivity.
  - reflexivity.
  - discriminate.
  - simpl. lia.
  - reflexivity.
  - reflexivity.
  - intros H. vm_compute in H. repeat (destruct H as [H|H]; [discriminate H|]). exact H.
  - vm_compute. reflexivity.
  - vm_compute. reflexivity.
  - intros x [[<-|[]]|[<-|[]]]; vm_compute; reflexivity.
  - split; [exact H1|]. unfold afile. split; [rewrite H3; vm_compute; reflexivity|].
    apply H4; [|vm_compute; reflexivity].
    intros H. vm_compute in H. destruct H as [H|[]]. discriminate H.
Defined.

(** C3, as stated, does not hold: a run with one matching line may leave
    the string in the rewritten file (a replacement that contains it), may
    stop before the rewrite (a maximum below one), may change the bytes of
    the other lines (a file with "\r\n" line ends is written back with
    "\n"), may stop with [UnboundLocalError] after the warnings about an
    unsupported editor, and skips the rewrite of a file that fails to
    decode. *)
Lemma replace_roundtrip_fails :
  global_search (rcfg "a" "aa" 100) [afile (s2l "a" ++ [NL]) false]
  = (Replaced 1, [EvWrite (s2l "a.py") (s2l "aa" ++ [NL])])
  /\ global_search (without_replace (rcfg "a" "aa" 100)) [afile (s2l "aa" ++ [NL]) false]
     = (Found 1, [])
  /\ global_search (rcfg "a" "c" 0) [afile (s2l "a" ++ [NL]) false] = (Truncated, [])
  /\ global_search (rcfg "a" "c" 100) [afile (s2l "a" ++ [CR; NL] ++ s2l "b" ++ [CR; NL]) false]
     = (Replaced 1, [EvWrite (s2l "a.py") (s2l "c" ++ [NL] ++ s2l "b" ++ [NL])])
  /\ global_search (mkConfig (s2l "a") true false "#"%char 100 false (Some (s2l "c"))
                      (Some (s2l "foo")) (Some []) (fun _ => false))
                   [afile (s2l "a" ++ [NL]) false]
     = (UnboundLocalError, [EvUnsupported (s2l "foo")])
  /\ global_search (rcfg "a" "c" 100) [afile (s2l "a" ++ [NL]) true]
     = (Replaced 1, [EvDecodeError (s2l "a.py")]).
Proof. repeat split; vm_compute; reflexivity. Qed.

(** * Further properties of [global_search] *)

(** ** What a completed line loop leaves in [lines] and [results] *)

Lemma scan_lines_done (cfg : config) (fn : str) (ls : list str) :
  forall n s lines0 res0 s' lines res,
  scan_lines cfg fn n ls s lines0 res0 = LDone s' lines res ->
  stats cfg = false ->
  lines = lines0 ++ match replace_with cfg with
                    | Some _ => map (rewrite_line cfg) ls
                    | None => []
                    end
  /\ (res <> res0 -> exists l, In l ls /\ accepted cfg l = true).
Proof.
  induction ls as [|x ls IH]; intros n s lines0 res0 s' lines res H Hs; cbn [scan_lines] in H.
  - injection H as _ <- <-. split; [destruct (replace_with cfg); rewrite app_nil_r; reflexivity|].
    intros C; contradiction.
  - rewrite Hs in H.
    destruct (match_line (string_ cfg) (case cfg) (include_comments cfg) (comment_marker cfg) x)
      as [[pos x']|] eqn:Em.
    + destruct (edit_step _ _ _ _) as [s3|]; [|discriminate].
      destruct (_ <? _)%Z; [discriminate|].
      apply IH in H as [H1 _]; [|exact Hs]. split.
      * assert (Erw : rewrite_line cfg x
                      = match replace_with cfg with Some r => py_replace x' (string_ cfg) r | None => x end)
          by (unfold rewrite_line; rewrite Em; destruct (replace_with cfg); reflexivity).
        rewrite H1. cbn [map]. rewrite Erw.
        destruct (replace_with cfg) as [r|]; [|rewrite !app_nil_r; reflexivity].
        unfold set_last. rewrite removelast_last, <- app_assoc. reflexivity.
      * intros _. exists x. split; [left; reflexivity|]. unfold accepted. rewrite Em. reflexivity.
    + apply IH in H as [H1 H2]; [|exact Hs]. split.
      * assert (Erw : rewrite_line cfg x = x) by (unfold rewrite_line; rewrite Em; reflexivity).
        rewrite H1. cbn [map]. rewrite Erw.
        destruct (replace_with cfg); [rewrite <- app_assoc; reflexivity | reflexivity].
      * intros Hne. destruct (H2 Hne) as [l [Hl Ha]]. exists l. split; [right; exact Hl | exact Ha].
Qed.

Lemma scan_lines_stats_results (cfg : config) (fn : str) (ls : list str) n s lines0 res0 s' lines res :
  stats cfg = true ->
  scan_lines cfg fn n ls s lines0 res0 = LDone s' lines res -> res = res0.
Proof.
  intros Hs H. rewrite scan_lines_stats in H by exact Hs. injection H as _ _ <-. reflexivity.
Qed.

(** ** Where the rewrites come from *)

Lemma scan_files_writes (cfg : config) (fs : list file) :
  forall s, exists s' es,
  (scan_files cfg fs s = FDone s' \/ exists r, scan_files cfg fs s = FReturn r s')
  /\ trace s' = trace s ++ es
  /\ forall p d, In (p, d) (writes es) -> write_origin cfg fs p d.
Proof.
  induction fs as [|f fs IH]; intros s; simpl.
  - exists s, []. split; [left; reflexivity|]. split; [rewrite app_nil_r; reflexivity|].
    intros p d [].
  - assert (Hw : forall p d, write_origin cfg fs p d -> write_origin cfg (f :: fs) p d).
    { intros p d [g [Hg Hrest]]. exists g. split; [right; exact Hg | exact Hrest]. }
    destruct (skip_path cfg (fname f)) eqn:Hsk.
    { destruct (IH s) as [s' [es [Ho [Ht Hx]]]]. exists s', es.
      split; [exact Ho|]. split; [exact Ht|]. intros p d Hi. apply Hw, Hx, Hi. }
    destruct (scan_lines_trace cfg (fname f) (read_lines (fdata f)) 0 (upd_cnt incr_files s) [] [])
      as [es1 [He1 Hw1]].
    destruct (scan_lines cfg (fname f) 0 (read_lines (fdata f)) (upd_cnt incr_files s) [] [])
      as [r s2 | s2 lines res] eqn:Hsl; simpl in He1.
    + exists s2, es1. split; [right; exists r; reflexivity|]. split; [exact He1|].
      intros p d Hi. rewrite Hw1 in Hi. destruct Hi.
    + set (dec := if fbad f then [EvDecodeError (fname f)] else []).
      set (wr := match res, replace_with cfg with
                 | _ :: _, Some _ => if negb (fbad f) then [EvWrite (fname f) (write_lines lines)] else []
                 | _, _ => []
                 end).
      set (s4 := mkSt (cnt s2) (command_var s2) (trace s2 ++ dec ++ wr)).
      match goal with |- context [scan_files cfg fs ?X] => replace X with s4 end.
      2:{ unfold s4, dec, wr. destruct s2 as [k c t]; simpl.
          destruct (fbad f), res, (replace_with cfg); simpl; rewrite ?app_nil_r, <- ?app_assoc;
            reflexivity. }
      destruct (IH s4) as [s' [es2 [Ho [Ht Hx]]]].
      exists s', (es1 ++ dec ++ wr ++ es2). split; [exact Ho|]. split.
      * rewrite Ht. unfold s4. simpl. rewrite He1, <- !app_assoc. reflexivity.
      * intros p d Hi. rewrite !writes_app, Hw1 in Hi. simpl in Hi.
        apply in_app_iff in Hi as [Hi | Hi].
        { unfold dec in Hi. destruct (fbad f); destruct Hi. }
        apply in_app_iff in Hi as [Hi | Hi]; [|apply Hw, Hx, Hi].
        unfold wr in Hi. destruct res as [|x res]; [destruct Hi|].
        destruct (replace_with cfg) as [r|] eqn:Hr; [|destruct Hi].
        destruct (fbad f) eqn:Hb; simpl in Hi; [destruct Hi|].
        destruct Hi as [Hi|[]]. injection Hi as <- <-.
        destruct (stats cfg) eqn:Hst.
        { apply scan_lines_stats_results in Hsl; [discriminate | exact Hst]. }
        destruct (scan_lines_done _ _ _ _ _ _ _ _ _ _ Hsl Hst) as [Hl Hres].
        exists f. split; [left; reflexivity|]. split; [reflexivity|]. split; [exact Hsk|].
        split; [exact Hb|]. split; [exact Hst|]. split; [rewrite Hr; discriminate|].
        split; [unfold write_lines; rewrite Hl, Hr; reflexivity|].
        apply Hres. discriminate.
Qed.

Lemma prepare_id (cfg : config) :
  case cfg = true -> string_ cfg <> [] -> prepare cfg = cfg.
Proof.
  destruct cfg as [s c ic cm mx st rw ew er sk]; simpl. intros -> Hne.
  destruct s; [contradiction | reflexivity].
Qed.

Lemma global_search_writes (cfg : config) (fs : list file) (p d : str) :
  In (p, d) (writes (snd (global_search cfg fs))) ->
  case cfg = true /\ string_ cfg <> [] /\ write_origin cfg fs p d.
Proof.
  intros H.
  assert (Hrun : In (p, d) (writes (trace (match scan_files (prepare cfg) fs st0 with
                                           | FReturn _ s => s | FDone s => s end)))
                 /\ replace_with cfg <> None /\ case cfg = true).
  { unfold global_search in H. destruct (replace_with cfg) as [r|] eqn:Hr.
    - destruct (case cfg) eqn:Hc; [|destruct H].
      split; [|split; [discriminate | reflexivity]].
      destruct (scan_files (prepare cfg) fs st0); exact H.
    - exfalso. destruct (scan_files_writes (prepare cfg) fs st0) as [s' [es [Ho [Ht Hx]]]].
      assert (Hi : In (p, d) (writes es)).
      { simpl in Ht. rewrite <- Ht. destruct Ho as [Ho | [r' Ho]]; rewrite Ho in H; exact H. }
      destruct (Hx p d Hi) as [f [_ [_ [_ [_ [_ [Hn _]]]]]]]. apply Hn. exact Hr. }
  destruct Hrun as [Hi [Hr Hc]].
  destruct (scan_files_writes (prepare cfg) fs st0) as [s' [es [Ho [Ht Hx]]]].
  simpl in Ht. destruct Ho as [Ho | [r' Ho]]; rewrite Ho, Ht in Hi;
  destruct (Hx p d Hi) as [f [Hf [Hp [Hsk [Hb [Hst [Hrw [Hd Hl]]]]]]]];
  (assert (Hne : string_ cfg <> []) by (intros E; simpl in Hst; rewrite E in Hst; discriminate));
  rewrite (prepare_id cfg Hc Hne) in *;
  (split; [exact Hc | split; [exact Hne | exists f; repeat split; assumption]]).
Qed.

Lemma data_after_unwritten (f : file) (es : list event) :
  (forall d, ~ In (fname f, d) (writes es)) -> data_after f es = fdata f.
Proof.
  unfold data_after. generalize (fdata f) as d0.
  induction es as [|e es IH]; intros d0 H; simpl; [reflexivity|].
  destruct e as [c|e|p|p d]; try (apply IH; exact H).
  unfold str_eqb. destruct (list_eq_dec ascii_dec p (fname f)) as [->|Hne].
  - exfalso. apply (H d). left. reflexivity.
  - apply IH. intros d' Hi. apply (H d'). right. exact Hi.
Qed.

(** Extra: a file is only ever rewritten by a case-sensitive replace run
    outside statistics mode with a non-empty search string; the file is one
    of the scanned files, not skipped, decoded without error, with at least
    one accepted line, and its new content is its lines read back with each
    accepted line replaced by [line.replace(string, replace_with)] (every
    occurrence on the line, those in a trailing comment included) and every
    other line kept. *)
Theorem rewrite_replaces_accepted_lines (cfg : config) (fs : list file) (p d : str) :
  In (p, d) (writes (snd (global_search cfg fs))) ->
  case cfg = true /\ stats cfg = false /\ string_ cfg <> [] /\ replace_with cfg <> None
  /\ exists f, In f fs /\ fname f = p /\ skip_path cfg p = false /\ fbad f = false
     /\ d = List.concat (map (rewrite_line cfg) (read_lines (fdata f)))
     /\ exists l, In l (read_lines (fdata f)) /\ accepted cfg l = true.
Proof.
  intros H. apply global_search_writes in H
    as [Hc [Hne [f [Hf [Hp [Hsk [Hb [Hst [Hr [Hd Hl]]]]]]]]]].
  split; [exact Hc|]. split; [exact Hst|]. split; [exact Hne|]. split; [exact Hr|].
  exists f. repeat split; assumption.
Qed.

Lemma rewrite_replaces_accepted_lines_witness :
  In (s2l "a.py", s2l "c = 1  # c" ++ [NL] ++ s2l "# b" ++ [NL])
     (writes (snd (global_search (rcfg "b" "c" 100) [afile cm_data false])))
  /\ s2l "c = 1  # c" ++ [NL] ++ s2l "# b" ++ [NL]
     = List.concat (map (rewrite_line (rcfg "b" "c" 100)) (read_lines cm_data)).
Proof.
  assert (H : In (s2l "a.py", s2l "c = 1  # c" ++ [NL] ++ s2l "# b" ++ [NL])
                 (writes (snd (global_search (rcfg "b" "c" 100) [afile cm_data false]))))
    by (vm_compute; left; reflexivity).
  split; [exact H|].
  destruct (rewrite_replaces_accepted_lines _ _ _ _ H) as [_ [_ [_ [_ [f [Hf [_ [_ [_ [Hd _]]]]]]]]]].
  destruct Hf as [<-|[]]. exact Hd.
Defined.

(** Extra: without a replacement string no file is ever written. *)
Theorem no_replacement_no_write (cfg : config) (fs : list file) :
  replace_with cfg = None -> writes (snd (global_search cfg fs)) = [].
Proof.
  intros Hr. destruct (writes (snd (global_search cfg fs))) as [|[p d] w] eqn:E; [reflexivity|].
  exfalso. assert (Hi : In (p, d) (writes (snd (global_search cfg fs)))) by (rewrite E; left; reflexivity).
  apply global_search_writes in Hi as [_ [_ [f [_ [_ [_ [_ [_ [Hn _]]]]]]]]]. exact (Hn Hr).
Qed.

Lemma no_replacement_no_write_witness :
  replace_with (search_cfg (s2l "b")) = None
  /\ writes (snd (global_search (search_cfg (s2l "b")) [afile cm_data false])) = [].
Proof. split; [reflexivity | apply no_replacement_no_write; reflexivity]. Defined.

(** Extra: a file whose path is skipped keeps its content, whatever the
    other arguments. *)
Theorem skipped_file_never_rewritten (cfg : config) (fs : list file) (f : file) :
  skip_path cfg (fname f) = true -> data_after f (snd (global_search cfg fs)) = fdata f.
Proof.
  intros Hs. apply data_after_unwritten. intros d Hi.
  apply global_search_writes in Hi as [_ [_ [g [_ [_ [Hsk _]]]]]].
  rewrite Hs in Hsk. discriminate.
Qed.

Lemma skipped_file_never_rewritten_witness :
  skip_path skip_a_cfg (fname (afile cm_data false)) = true
  /\ data_after (afile cm_data false) (snd (global_search skip_a_cfg [afile cm_data false])) = cm_data.
Proof. split; [reflexivity | apply skipped_file_never_rewritten; reflexivity]. Defined.

(** Extra: a path whose every scanned file fails to decode keeps its
    content, even when lines read before the failure matched. *)
Theorem undecodable_file_never_rewritten (cfg : config) (fs : list file) (f : file) :
  (forall g, In g fs -> fname g = fname f -> fbad g = true) ->
  data_after f (snd (global_search cfg fs)) = fdata f.
Proof.
  intros Hbad. apply data_after_unwritten. intros d Hi.
  apply global_search_writes in Hi as [_ [_ [g [Hg [Hp [_ [Hb _]]]]]]].
  rewrite (Hbad g Hg Hp) in Hb. discriminate.
Qed.

Lemma undecodable_file_never_rewritten_witness :
  fst (global_search (rcfg "b" "c" 100) [afile cm_data true]) = Replaced 1
  /\ data_after (afile cm_data true) (snd (global_search (rcfg "b" "c" 100) [afile cm_data true]))
     = cm_data.
Proof.
  split; [vm_compute; reflexivity|].
  apply undecodable_file_never_rewritten. intros g [<-|[]] _. reflexivity.
Defined.

(** ** The counters of a completed scan *)

Lemma scan_lines_count (cfg : config) (fn : str) (ls : list str) :
  forall n s lines0 res0 s' lines res,
  scan_lines cfg fn n ls s lines0 res0 = LDone s' lines res ->
  stats cfg = false ->
  occurrences (cnt s') = occurrences (cnt s) + List.length (filter (accepted cfg) ls)
  /\ matching_lines (cnt s') = matching_lines (cnt s) + List.length (filter (accepted cfg) ls)
  /\ (List.length (filter (accepted cfg) ls) = 0
      \/ (Z.of_nat (matching_lines (cnt s')) <= maximum cfg)%Z).
Proof.
  induction ls as [|x ls IH]; intros n s lines0 res0 s' lines res H Hs; cbn [scan_lines] in H.
  - injection H as <- _ _. simpl. split; [lia|]. split; [lia|]. left; reflexivity.
  - rewrite Hs in H. cbn [filter].
    destruct (match_line (string_ cfg) (case cfg) (include_comments cfg) (comment_marker cfg) x)
      as [[pos x']|] eqn:Em.
    + assert (Ha : accepted cfg x = true) by (unfold accepted; rewrite Em; reflexivity).
      rewrite Ha. cbn [List.length].
      destruct (edit_step _ _ _ _) as [s3|] eqn:Ee; [|discriminate].
      apply edit_step_trace in Ee as [Hc3 _].
      destruct (_ <? _)%Z eqn:Hlt; [discriminate|].
      apply Z.ltb_ge in Hlt.
      apply IH in H as [H1 [H2 H3]]; [|exact Hs].
      simpl in H1, H2, Hlt. rewrite Hc3 in H1, H2, Hlt. simpl in H1, H2, Hlt.
      split; [lia|]. split; [lia|]. right.
      destruct H3 as [H3|H3]; [|exact H3].
      rewrite H2, H3, Nat.add_0_r. exact Hlt.
    + assert (Ha : accepted cfg x = false) by (unfold accepted; rewrite Em; reflexivity).
      rewrite Ha. exact (IH _ _ _ _ _ _ _ H Hs).
Qed.

Lemma scan_files_count (cfg : config) (fs : list file) :
  forall s s', scan_files cfg fs s = FDone s' -> stats cfg = false ->
  occurrences (cnt s') = occurrences (cnt s) + total_matches cfg fs
  /\ matching_lines (cnt s') = matching_lines (cnt s) + total_matches cfg fs
  /\ (total_matches cfg fs = 0 \/ (Z.of_nat (matching_lines (cnt s')) <= maximum cfg)%Z).
Proof.
  induction fs as [|f fs IH]; intros s s' H Hs; simpl in H |- *.
  - injection H as <-. split; [lia|]. split; [lia|]. left; reflexivity.
  - destruct (skip_path cfg (fname f)).
    + apply IH in H; [|exact Hs]. simpl. exact H.
    + destruct (scan_lines cfg (fname f) 0 (read_lines (fdata f)) (upd_cnt incr_files s) [] [])
        as [r s2 | s2 lines res] eqn:Hsl; [discriminate|].
      apply scan_lines_count in Hsl as [A1 [A2 A3]]; [|exact Hs].
      match type of H with scan_files _ _ ?X = _ =>
        assert (Hc : cnt X = cnt s2) by (destruct (fbad f), res, (replace_with cfg); reflexivity);
        apply IH in H as [B1 [B2 B3]]; [|exact Hs]; rewrite Hc in B1, B2 end.
      simpl in A1, A2.
      split; [lia|]. split; [lia|].
      destruct B3 as [B3|B3]; [|right; exact B3].
      destruct A3 as [A3|A3]; [left; lia|]. right. rewrite B2, B3, Nat.add_0_r. exact A3.
Qed.

Lemma scan_lines_return (cfg : config) (fn : str) (ls : list str) :
  forall n s lines res r s',
  scan_lines cfg fn n ls s lines res = LReturn r s' -> r = Truncated \/ r = UnboundLocalError.
Proof.
  induction ls as [|x ls IH]; intros n s lines res r s' H; cbn [scan_lines] in H; [discriminate|].
  destruct (stats cfg); [eapply IH; exact H|].
  destruct (match_line _ _ _ _ x) as [[pos x']|]; [|eapply IH; exact H].
  destruct (edit_step _ _ _ _); [|injection H as <- _; right; reflexivity].
  destruct (_ <? _)%Z; [injection H as <- _; left; reflexivity | eapply IH; exact H].
Qed.

Lemma scan_files_return (cfg : config) (fs : list file) :
  forall s r s', scan_files cfg fs s = FReturn r s' -> r = Truncated \/ r = UnboundLocalError.
Proof.
  induction fs as [|f fs IH]; intros s r s' H; simpl in H; [discriminate|].
  destruct (skip_path cfg (fname f)); [eapply IH; exact H|].
  destruct (scan_lines cfg (fname f) 0 (read_lines (fdata f)) (upd_cnt incr_files s) [] [])
    as [r' s2 | s2 lines res] eqn:Hsl.
  - injection H as <- _. eapply scan_lines_return. exact Hsl.
  - eapply IH. exact H.
Qed.

(** Extra: the count a completed search or replacement reports is the
    number of accepted lines over all files that are not skipped (the
    search string lower-cased for a case-insensitive search; the lines a
    file delivers before a decoding error included); it is 0 or at most
    [maximum]. *)
Theorem reported_count_is_accepted_lines (cfg : config) (fs : list file) (n : nat) :
  fst (global_search cfg fs) = Found n \/ fst (global_search cfg fs) = Replaced n ->
  n = total_matches (prepare cfg) fs /\ (n = 0 \/ (Z.of_nat n <= maximum cfg)%Z).
Proof.
  intros H.
  assert (Hrun : fst (match scan_files (prepare cfg) fs st0 with
                      | FReturn r s => (r, trace s)
                      | FDone s => (final_result (prepare cfg) (cnt s), trace s)
                      end) = Found n
                 \/ fst (match scan_files (prepare cfg) fs st0 with
                         | FReturn r s => (r, trace s)
                         | FDone s => (final_result (prepare cfg) (cnt s), trace s)
                         end) = Replaced n).
  { unfold global_search in H. destruct (replace_with cfg); [|exact H].
    destruct (case cfg); [exact H|]. destruct H as [H|H]; discriminate. }
  clear H.
  destruct (scan_files (prepare cfg) fs st0) as [r s|s] eqn:Hsf.
  - apply scan_files_return in Hsf. simpl in Hrun.
    destruct Hsf as [->| ->]; destruct Hrun as [H|H]; discriminate.
  - simpl in Hrun. unfold final_result in Hrun.
    destruct (stats (prepare cfg)) eqn:Hst; [destruct Hrun as [H|H]; discriminate|].
    apply scan_files_count in Hsf as [B1 [B2 B3]]; [|exact Hst]. simpl in B1, B2.
    assert (Hn : n = occurrences (cnt s))
      by (destruct (replace_with (prepare cfg)); destruct Hrun as [H|H];
          first [injection H as E; symmetry; exact E | discriminate]).
    subst n. split; [exact B1|].
    destruct B3 as [B3|B3]; [left; lia|]. right. rewrite B1, <- B2. exact B3.
Qed.

Lemma reported_count_is_accepted_lines_witness :
  fst (global_search (search_cfg (s2l "b")) [afile cm_data false]) = Found 1
  /\ total_matches (prepare (search_cfg (s2l "b"))) [afile cm_data false] = 1.
Proof.
  assert (H : fst (global_search (search_cfg (s2l "b")) [afile cm_data false]) = Found 1)
    by (vm_compute; reflexivity).
  split; [exact H|].
  destruct (reported_count_is_accepted_lines _ _ _ (or_introl H)) as [E _].
  symmetry. exact E.
Defined.

(** ** Editor launches *)

Lemma calls_app (a b : list event) : calls (a ++ b) = calls a ++ calls b.
Proof. unfold calls. apply flat_map_app. Qed.

Section Unsupported.
Variable cfg : config.
Variable e : str.
Hypothesis He : edit_with cfg = Some e.
Hypothesis Hu : py_in e SUPPORTED_EDITORS = false.

Lemma edit_step_unsupported (fn : str) (n : nat) (s s' : st) :
  command_var s = None -> edit_step cfg fn n s = EditOk s' -> s' = s.
Proof.
  intros Hc. unfold edit_step. rewrite He.
  destruct (edit_result cfg) as [er|]; [|intros H; injection H as <-; reflexivity].
  destruct (match er with [] => true | _ => _ end); [|intros H; injection H as <-; reflexivity].
  rewrite Hu. simpl. rewrite Hc. discriminate.
Qed.

Lemma edit_step_unsupported_selected (fn : str) (n : nat) (s : st) :
  edit_result cfg = Some [] -> command_var s = None ->
  edit_step cfg fn n s = EditRaise (emit (EvUnsupported e) s).
Proof.
  intros Her Hc. unfold edit_step. rewrite He, Her, Hu. simpl. rewrite Hc. reflexivity.
Qed.

Lemma scan_lines_unsupported (fn : str) (ls : list str) :
  forall n s lines res, command_var s = None ->
  command_var (line_outcome_state (scan_lines cfg fn n ls s lines res)) = None
  /\ calls (trace (line_outcome_state (scan_lines cfg fn n ls s lines res))) = calls (trace s).
Proof.
  induction ls as [|x ls IH]; intros n s lines res Hc; cbn [scan_lines]; [split; [exact Hc | reflexivity]|].
  destruct (stats cfg); [exact (IH _ (upd_cnt (stats_line (comment_marker cfg) x) s) _ _ Hc)|].
  destruct (match_line _ _ _ _ x) as [[pos x']|]; [|exact (IH _ _ _ _ Hc)].
  destruct (edit_step _ _ _ _) as [s3|s3] eqn:Ee.
  - apply edit_step_unsupported in Ee; [|exact Hc]. subst s3.
    destruct (_ <? _)%Z; [split; [exact Hc | reflexivity]|].
    exact (IH _ (upd_cnt incr_matching (upd_cnt incr_occurrences s)) _ _ Hc).
  - revert Ee. unfold edit_step. rewrite He.
    destruct (edit_result cfg) as [er|]; [|discriminate].
    destruct (match er with [] => true | _ => _ end); [|discriminate].
    rewrite Hu. simpl. rewrite Hc. intros Ee. injection Ee as <-. simpl.
    rewrite calls_app. simpl. rewrite app_nil_r. split; [exact Hc | reflexivity].
Qed.

Lemma scan_files_unsupported (fs : list file) :
  forall s, command_var s = None ->
  match scan_files cfg fs s with
  | FReturn _ s' | FDone s' => calls (trace s') = calls (trace s)
  end.
Proof.
  induction fs as [|f fs IH]; intros s Hc; simpl; [reflexivity|].
  destruct (skip_path cfg (fname f)); [apply IH; exact Hc|].
  destruct (scan_lines_unsupported (fname f) (read_lines (fdata f)) 0 (upd_cnt incr_files s) [] [] Hc)
    as [Hc2 Ht2].
  destruct (scan_lines cfg (fname f) 0 (read_lines (fdata f)) (upd_cnt incr_files s) [] [])
    as [r s2 | s2 lines res]; simpl in Hc2, Ht2; [rewrite Ht2; reflexivity|].
  match goal with |- match scan_files cfg fs ?X with _ => _ end =>
    assert (HX : command_var X = None /\ calls (trace X) = calls (trace s))
      by (destruct (fbad f), res, (replace_with cfg); simpl;
          rewrite ?calls_app, Ht2; simpl; rewrite ?app_nil_r; split; first [exact Hc2 | reflexivity]);
    destruct HX as [HXc HXt]; pose proof (IH X HXc) as HI;
    destruct (scan_files cfg fs X); rewrite HI; exact HXt
  end.
Qed.

Lemma scan_lines_unsupported_raise (fn : str) (ls : list str) :
  edit_result cfg = Some [] -> stats cfg = false ->
  (exists l, In l ls /\ accepted cfg l = true) ->
  forall n s lines res, command_var s = None ->
  exists s', scan_lines cfg fn n ls s lines res = LReturn UnboundLocalError s'.
Proof.
  intros Her Hs. induction ls as [|x ls IH]; intros [l [Hl Ha]] n s lines res Hc; [destruct Hl|].
  cbn [scan_lines]. rewrite Hs.
  destruct (match_line _ _ _ _ x) as [[pos x']|] eqn:Em.
  - rewrite edit_step_unsupported_selected by (first [exact Her | exact Hc]).
    eexists. reflexivity.
  - destruct Hl as [<-|Hl].
    + unfold accepted in Ha. rewrite Em in Ha. discriminate.
    + apply IH; [exists l; split; assumption | exact Hc].
Qed.

Lemma scan_files_unsupported_raise (fs : list file) :
  edit_result cfg = Some [] -> stats cfg = false ->
  (exists f l, In f fs /\ skip_path cfg (fname f) = false /\ In l (read_lines (fdata f))
               /\ accepted cfg l = true) ->
  forall s, command_var s = None ->
  exists s', scan_files cfg fs s = FReturn UnboundLocalError s'.
Proof.
  intros Her Hs. induction fs as [|f fs IH]; intros [g [l [Hg [Hsk [Hl Ha]]]]] s Hc; [destruct Hg|].
  simpl. destruct (existsb (accepted cfg) (read_lines (fdata f))) eqn:Ex.
  - apply existsb_exists in Ex as [l' [Hl' Ha']].
    destruct (skip_path cfg (fname f)) eqn:Hskf.
    + destruct Hg as [<-|Hg]; [rewrite Hsk in Hskf; discriminate|].
      apply IH; [exists g, l; repeat split; assumption | exact Hc].
    + destruct (scan_lines_unsupported_raise (fname f) (read_lines (fdata f)) Her Hs
                  (ex_intro _ l' (conj Hl' Ha')) 0 (upd_cnt incr_files s) [] [] Hc) as [s' Hr].
      rewrite Hr. eexists. reflexivity.
  - assert (Hg' : In g fs).
    { destruct Hg as [<-|Hg]; [|exact Hg]. exfalso.
      assert (E : existsb (accepted cfg) (read_lines (fdata f)) = true)
        by (apply existsb_exists; exists l; split; assumption).
      rewrite E in Ex. discriminate. }
    destruct (skip_path cfg (fname f)); [apply IH; [exists g, l; repeat split; assumption | exact Hc]|].
    rewrite scan_lines_nomatch.
    + apply IH; [exists g, l; repeat split; assumption|].
      destruct (fbad f), (replace_with cfg); exact Hc.
    + exact Hs.
    + intros x Hx. destruct (match_line _ _ _ _ x) eqn:Em; [|reflexivity]. exfalso.
      assert (E : existsb (accepted cfg) (read_lines (fdata f)) = true)
        by (apply existsb_exists; exists x; split; [exact Hx | unfold accepted; rewrite Em; reflexivity]).
      rewrite E in Ex. discriminate.
Qed.
End Unsupported.

(** Extra: an editor outside [SUPPORTED_EDITORS] is never launched: the
    output holds no call of [subprocess.call]. *)
Theorem unsupported_editor_never_launched (cfg : config) (fs : list file) (e : str) :
  edit_with cfg = Some e -> py_in e SUPPORTED_EDITORS = false ->
  calls (snd (global_search cfg fs)) = [].
Proof.
  intros He Hu.
  pose proof (scan_files_unsupported (prepare cfg) e He Hu fs st0 eq_refl) as H.
  unfold global_search.
  destruct (scan_files (prepare cfg) fs st0);
    destruct (replace_with cfg); try destruct (case cfg); solve [reflexivity | exact H].
Qed.

Lemma unsupported_editor_never_launched_witness :
  py_in (s2l "foo") SUPPORTED_EDITORS = false
  /\ calls (snd (global_search (edit_all_cfg "foo") [afile cm_data false])) = [].
Proof. split; [reflexivity | apply (unsupported_editor_never_launched _ _ (s2l "foo")); reflexivity]. Defined.

(** Extra: when every result is to be opened ([edit_result] empty) with an
    editor outside [SUPPORTED_EDITORS], a run that reaches an accepted line
    stops there with [UnboundLocalError]: [command] is never assigned. *)
Theorem unsupported_editor_raises (cfg : config) (fs : list file) (e : str) :
  edit_with cfg = Some e -> py_in e SUPPORTED_EDITORS = false -> edit_result cfg = Some [] ->
  string_ cfg <> [] -> stats cfg = false -> (replace_with cfg = None \/ case cfg = true) ->
  (exists f l, In f fs /\ skip_path cfg (fname f) = false /\ In l (read_lines (fdata f))
               /\ accepted (prepare cfg) l = true) ->
  fst (global_search cfg fs) = UnboundLocalError.
Proof.
  intros He Hu Her Hne Hs Hok Hex.
  assert (Hps : stats (prepare cfg) = false)
    by (simpl; destruct (string_ cfg); [contradiction | exact Hs]).
  destruct (scan_files_unsupported_raise (prepare cfg) e He Hu fs Her Hps Hex st0 eq_refl) as [s' Hr].
  unfold global_search. rewrite Hr.
  destruct (replace_with cfg); [|reflexivity].
  destruct Hok as [Hok|Hok]; [discriminate|]. rewrite Hok. reflexivity.
Qed.

Lemma unsupported_editor_raises_witness :
  fst (global_search (edit_all_cfg "foo") [afile cm_data false]) = UnboundLocalError.
Proof.
  apply (unsupported_editor_raises _ _ (s2l "foo")); try reflexivity.
  - discriminate.
  - left. reflexivity.
  - exists (afile cm_data false), (s2l "b = 1  # b" ++ [NL]).
    split; [left; reflexivity|]. split; [reflexivity|].
    split; [vm_compute; left; reflexivity | vm_compute; reflexivity].
Defined.

Section Supported.
Variable cfg : config.
Variable e : str.
Hypothesis He : edit_with cfg = Some e.
Hypothesis Hsup : py_in e SUPPORTED_EDITORS = true.
Hypothesis Her : edit_result cfg = Some [].

Lemma edit_step_supported (fn : str) (n : nat) (s : st) :
  edit_step cfg fn n s
  = EditOk (emit (EvCall (editor_command e n fn))
               (mkSt (cnt s) (Some (editor_command e n fn)) (trace s))).
Proof. unfold edit_step, editor_command. rewrite He, Her, Hsup. reflexivity. Qed.

Lemma scan_lines_calls (fn : str) (ls : list str) :
  stats cfg = false ->
  forall n s lines0 res0 s' lines res,
  scan_lines cfg fn n ls s lines0 res0 = LDone s' lines res ->
  calls (trace s') = calls (trace s) ++ map (fun i => editor_command e i fn) (accepted_indices cfg n ls).
Proof.
  intros Hs. induction ls as [|x ls IH]; intros n s lines0 res0 s' lines res H; cbn [scan_lines] in H.
  - injection H as <- _ _. simpl. rewrite app_nil_r. reflexivity.
  - rewrite Hs in H. cbn [accepted_indices].
    destruct (match_line (string_ cfg) (case cfg) (include_comments cfg) (comment_marker cfg) x)
      as [[pos x']|] eqn:Em.
    + assert (Ha : accepted cfg x = true) by (unfold accepted; rewrite Em; reflexivity).
      rewrite Ha. rewrite edit_step_supported in H.
      destruct (_ <? _)%Z; [discriminate|].
      apply IH in H. rewrite H. simpl. rewrite calls_app. simpl. rewrite <- app_assoc. reflexivity.
    + assert (Ha : accepted cfg x = false) by (unfold accepted; rewrite Em; reflexivity).
      rewrite Ha. exact (IH _ _ _ _ _ _ _ H).
Qed.

Lemma scan_files_calls (fs : list file) :
  stats cfg = false ->
  forall s s', scan_files cfg fs s = FDone s' ->
  calls (trace s')
  = calls (trace s)
    ++ flat_map (fun f => if skip_path cfg (fname f) then []
                          else map (fun i => editor_command e i (fname f))
                                 (accepted_indices cfg 0 (read_lines (fdata f)))) fs.
Proof.
  intros Hs. induction fs as [|f fs IH]; intros s s' H; simpl in H |- *.
  - injection H as <-. rewrite app_nil_r. reflexivity.
  - destruct (skip_path cfg (fname f)); [apply IH; exact H|].
    destruct (scan_lines cfg (fname f) 0 (read_lines (fdata f)) (upd_cnt incr_files s) [] [])
      as [r s2 | s2 lines res] eqn:Hsl; [discriminate|].
    apply scan_lines_calls in Hsl; [|exact Hs]. simpl in Hsl.
    match type of H with scan_files _ _ ?X = _ =>
      assert (HX : calls (trace X) = calls (trace s2))
        by (destruct (fbad f), res, (replace_with cfg); simpl;
            rewrite ?calls_app; simpl; rewrite ?app_nil_r; reflexivity);
      apply IH in H; rewrite H, HX end.
    rewrite Hsl, app_assoc. reflexivity.
Qed.
End Supported.

(** Extra: when every result is to be opened ([edit_result] empty) with a
    supported editor, a completed run launches the editor once per accepted
    line, in the order of the scan, on the file's path at the line's 1-based
    number, with the line option of that editor ([-l] for geany and kate,
    [--line] for kile, [+] otherwise). *)
Theorem supported_editor_opens_each_result (cfg : config) (fs : list file) (e : str) (n : nat) :
  edit_with cfg = Some e -> py_in e SUPPORTED_EDITORS = true -> edit_result cfg = Some [] ->
  fst (global_search cfg fs) = Found n \/ fst (global_search cfg fs) = Replaced n ->
  calls (snd (global_search cfg fs))
  = flat_map (fun f => if skip_path cfg (fname f) then []
                       else map (fun i => editor_command e i (fname f))
                              (accepted_indices (prepare cfg) 0 (read_lines (fdata f)))) fs.
Proof.
  intros He Hsup Her H.
  unfold global_search in H |- *.
  assert (Hok : replace_with cfg = None \/ case cfg = true).
  { destruct (replace_with cfg); [|left; reflexivity].
    destruct (case cfg); [right; reflexivity|]. destruct H as [H|H]; discriminate. }
  assert (Hrun : forall A (x y : A), match replace_with cfg with
                                     | Some _ => if case cfg then x else y
                                     | None => x end = x).
  { intros A x y. destruct (replace_with cfg); [|reflexivity].
    destruct Hok as [Hok|Hok]; [discriminate|]. rewrite Hok. reflexivity. }
  rewrite Hrun in H |- *.
  destruct (scan_files (prepare cfg) fs st0) as [r s|s] eqn:Hsf.
  - apply scan_files_return in Hsf. simpl in H.
    destruct Hsf as [->| ->]; destruct H as [H|H]; discriminate.
  - simpl in H. unfold final_result in H.
    destruct (stats (prepare cfg)) eqn:Hst; [destruct H as [H|H]; discriminate|].
    simpl. exact (scan_files_calls (prepare cfg) e He Hsup Her fs Hst st0 s Hsf).
Qed.

Lemma supported_editor_opens_each_result_witness :
  fst (global_search (edit_all_cfg "kile") [afile cm_data false]) = Found 1
  /\ calls (snd (global_search (edit_all_cfg "kile") [afile cm_data false]))
     = [Command (s2l "kile") FlagLine 1 (s2l "a.py")].
Proof.
  assert (H : fst (global_search (edit_all_cfg "kile") [afile cm_data false]) = Found 1)
    by (vm_compute; reflexivity).
  split; [exact H|].
  rewrite (supported_editor_opens_each_result _ _ (s2l "kile") 1);
    [vm_compute; reflexivity | reflexivity | reflexivity | reflexivity | left; exact H].
Defined.

(** ** Statistics mode *)

(** Extra: with [stats] set (and the invocation not rejected by the
    assertion), whatever the search string, every line of every file that
    is not skipped is classified, no line is matched, no file is written,
    no editor is launched, and the statistics summary is returned. *)
Theorem stats_mode_summary (cfg : config) (fs : list file) :
  stats cfg = true ->
  (replace_with cfg = None \/ case cfg = true) ->
  global_search cfg fs
  = (let k := stats_count (comment_marker cfg) (skip_path cfg) fs counters0 in
     StatsSummary (code_lines_count k) (comments_lines_count k)
                  (empty_lines_count k) (files_count k),
     decode_warnings (skip_path cfg) fs).
Proof.
  intros Hs Hok.
  assert (Hps : stats (prepare cfg) = true) by (simpl; destruct (string_ cfg); [reflexivity | exact Hs]).
  assert (Hrun : scan_files (prepare cfg) fs st0
                 = FDone (mkSt (stats_count (comment_marker cfg) (skip_path cfg) fs counters0)
                               None ([] ++ decode_warnings (skip_path cfg) fs))).
  { rewrite scan_files_stats by exact Hps. reflexivity. }
  unfold global_search. rewrite Hrun.
  unfold final_result. rewrite Hps.
  destruct (replace_with cfg); [|reflexivity].
  destruct Hok as [Hok|Hok]; [discriminate|]. rewrite Hok. reflexivity.
Qed.

Lemma stats_mode_summary_witness :
  global_search (mkConfig (s2l "b") true false "#"%char 100%Z true (Some (s2l "c")) None None
                   (fun _ => false)) [afile cm_data false]
  = (StatsSummary 1 1 0 1, []).
Proof.
  rewrite stats_mode_summary; [vm_compute; reflexivity | reflexivity | right; reflexivity].
Defined.

(** ** The extension filter *)

Lemma str_eqb_true (a b : str) : str_eqb a b = true <-> a = b.
Proof.
  unfold str_eqb. destruct (list_eq_dec ascii_dec a b); split; intros H; congruence.
Qed.

Lemma py_in_iff (x : str) (xs : list str) : py_in x xs = true <-> In x xs.
Proof.
  unfold py_in. rewrite existsb_exists. split.
  - intros [y [Hy E]]. apply str_eqb_true in E. subst. exact Hy.
  - intros H. exists x. split; [exact H | apply str_eqb_true; reflexivity].
Qed.

Lemma rfind_aux_absent (c : ascii) (s : str) (i : nat) (best : Z) :
  ~ In c s -> rfind_aux c s i best = best.
Proof.
  revert i best. induction s as [|d s IH]; intros i best Hn; simpl; [reflexivity|].
  assert (E : Ascii.eqb d c = false) by (apply ascii_eqb_false; intros ->; apply Hn; left; reflexivity).
  rewrite E. apply IH. intros H; apply Hn; right; exact H.
Qed.

Lemma rfind_aux_last (c : ascii) (a w : str) (i : nat) (best : Z) :
  ~ In c w -> rfind_aux c (a ++ c :: w) i best = Z.of_nat (i + List.length a).
Proof.
  revert i best. induction a as [|d a IH]; intros i best Hn; simpl.
  - rewrite Ascii.eqb_refl, rfind_aux_absent by exact Hn. f_equal. lia.
  - rewrite IH by exact Hn. f_equal. lia.
Qed.

Lemma last_occurrence (c : ascii) (f : str) :
  In c f -> exists a w, f = a ++ c :: w /\ ~ In c w.
Proof.
  induction f as [|x f IH]; intros H; [destruct H|].
  destruct (in_dec ascii_dec c f) as [Hi|Hi].
  - destruct (IH Hi) as [a [w [-> Hw]]]. exists (x :: a), w. split; [reflexivity | exact Hw].
  - destruct H as [<-|H]; [|contradiction]. exists [], f. split; [reflexivity | exact Hi].
Qed.

Lemma slice_after_last_dot (a w : str) :
  ~ In "."%char w ->
  py_slice_from (a ++ "."%char :: w) (py_rfind (a ++ "."%char :: w) "."%char) = "."%char :: w.
Proof.
  intros Hn. unfold py_rfind. rewrite rfind_aux_last by exact Hn. simpl.
  unfold py_slice_from.
  replace (Z.of_nat (List.length a) <? 0)%Z with false by (symmetry; apply Z.ltb_ge; lia).
  rewrite Nat2Z.id, skipn_app, skipn_all, Nat.sub_diag. reflexivity.
Qed.

Lemma slice_no_dot (f : str) :
  ~ In "."%char f ->
  py_slice_from f (py_rfind f "."%char) = match rev f with [] => [] | c :: _ => [c] end.
Proof.
  intros Hn. unfold py_rfind. rewrite rfind_aux_absent by exact Hn.
  unfold py_slice_from. simpl.
  destruct (rev f) as [|c r] eqn:Er.
  - assert (f = []) as -> by (rewrite <- (rev_involutive f), Er; reflexivity). reflexivity.
  - assert (Ef : f = rev r ++ [c]) by (rewrite <- (rev_involutive f), Er; reflexivity).
    rewrite Ef, length_app, length_rev. simpl.
    replace (Z.max 0 (Z.of_nat (List.length r + 1) + -1)) with (Z.of_nat (List.length r)) by lia.
    rewrite Nat2Z.id. rewrite <- (length_rev r), skipn_app, skipn_all, Nat.sub_diag. reflexivity.
Qed.

Lemma last_dot_unique (u v u' v' : str) :
  ~ In "."%char v -> ~ In "."%char v' -> u ++ "."%char :: v = u' ++ "."%char :: v' -> v = v'.
Proof.
  intros Hv Hv'. revert u'. induction u as [|x u IHu]; intros u' Eu; destruct u' as [|y u'].
  - injection Eu as Eq. exact Eq.
  - injection Eu as _ Eq. exfalso. apply Hv. rewrite Eq. apply in_or_app. right. left. reflexivity.
  - injection Eu as _ Eq. exfalso. apply Hv'. rewrite <- Eq. apply in_or_app. right. left. reflexivity.
  - injection Eu as _ Eq. exact (IHu _ Eq).
Qed.

(** Extra: the filter of line 124 keeps a name [f] exactly when either [f]
    has a dot and the part from its last dot on is one of the extensions,
    or [f] has no dot and its last character alone (the empty string for an
    empty name) is one of them: [rfind] returns -1 there and [f[-1:]] is
    the last character. *)
Theorem select_file_spec (extensions : list str) (f : str) :
  select_file extensions f = true
  <-> (exists a w, f = a ++ "."%char :: w /\ ~ In "."%char w /\ In ("."%char :: w) extensions)
      \/ (~ In "."%char f
          /\ ((f = [] /\ In [] extensions) \/ exists b c, f = b ++ [c] /\ In [c] extensions)).
Proof.
  unfold select_file. rewrite py_in_iff.
  destruct (in_dec ascii_dec "."%char f) as [Hd|Hd].
  - destruct (last_occurrence _ _ Hd) as [a [w [-> Hw]]].
    rewrite slice_after_last_dot by exact Hw. split.
    + intros H. left. exists a, w. repeat split; assumption.
    + intros [[a' [w' [E [Hw' Hi]]]] | [C _]]; [|contradiction].
      assert (Ew : w' = w) by (symmetry; exact (last_dot_unique a w a' w' Hw Hw' E)).
      subst w'. exact Hi.
  - rewrite slice_no_dot by exact Hd. split.
    + intros H. right. split; [exact Hd|].
      destruct (rev f) as [|c r] eqn:Er.
      * left. split; [rewrite <- (rev_involutive f), Er; reflexivity | exact H].
      * right. exists (rev r), c. split; [rewrite <- (rev_involutive f), Er; reflexivity | exact H].
    + intros [[a [w [-> _]]] | [_ [[-> H] | [b [c [-> H]]]]]].
      * exfalso. apply Hd. apply in_or_app. right. left. reflexivity.
      * exact H.
      * rewrite rev_app_distr. exact H.
Qed.

(** Extra: with the default extensions [(".py", ".pyw")], the filter of
    line 124 keeps exactly the names ending in [.py] or [.pyw] (a name
    without a dot is never kept). *)
Theorem default_extensions_select (f : str) :
  select_file default_extensions f = true
  <-> exists b, f = b ++ s2l ".py" \/ f = b ++ s2l ".pyw".
Proof.
  unfold select_file. rewrite py_in_iff. split.
  - intros H. destruct (in_dec ascii_dec "."%char f) as [Hd|Hd].
    + destruct (last_occurrence _ _ Hd) as [a [w [-> Hw]]].
      rewrite slice_after_last_dot in H by exact Hw.
      exists a. destruct H as [H|[H|[]]]; [left | right]; rewrite <- H; reflexivity.
    + rewrite slice_no_dot in H by exact Hd. exfalso.
      destruct (rev f) as [|c r]; destruct H as [H|[H|[]]]; discriminate H.
  - intros [b [-> | ->]].
    + change (s2l ".py") with ("."%char :: s2l "py").
      rewrite slice_after_last_dot by (simpl; intros [H|[H|[]]]; discriminate H).
      left. reflexivity.
    + change (s2l ".pyw") with ("."%char :: s2l "pyw").
      rewrite slice_after_last_dot by (simpl; intros [H|[H|[H|[]]]]; discriminate H).
      right. left. reflexivity.
Qed.

(** ** Skipped paths *)

Lemma re_search_sub (r : regex) (u v w : str) :
  matches r v = true -> re_search r (u ++ v ++ w) = true.
Proof.
  intros H. unfold re_search. apply existsb_exists. exists (List.length u). split.
  - apply in_seq. rewrite !length_app. lia.
  - apply existsb_exists. exists (List.length v). split.
    + apply in_seq. rewrite !length_app. lia.
    + rewrite skipn_app, skipn_all, Nat.sub_diag. simpl.
      rewrite firstn_app, firstn_all, Nat.sub_diag. simpl. rewrite app_nil_r. exact H.
Qed.

Lemma scan_files_all_skipped (cfg : config) (fs : list file) :
  (forall f, In f fs -> skip_path cfg (fname f) = true) -> forall s, scan_files cfg fs s = FDone s.
Proof.
  induction fs as [|f fs IH]; intros H s; simpl; [reflexivity|].
  rewrite (H f (or_introl eq_refl)). apply IH. intros g Hg. apply H. right. exact Hg.
Qed.

Lemma IGNORE_skips_all :
  exists ir, ignore_regex IGNORE = Some ir
  /\ forall p, (exists c, In c p /\ c <> NL) -> skips ir p = true.
Proof.
  let v := eval vm_compute in (ignore_regex IGNORE) in
  match v with Some ?ir => exists ir end.
  split; [vm_compute; reflexivity|].
  intros p [c [Hc Hn]]. apply in_split in Hc as [u [w ->]].
  change (c :: w) with ([c] ++ w). cbn [skips]. apply re_search_sub.
  unfold matches. cbn [fold_left deriv].
  assert (E : Ascii.eqb c NL = false) by (apply ascii_eqb_false; exact Hn).
  rewrite E. reflexivity.
Qed.

(** Extra: the module's default skip list [IGNORE] (the command line's
    default for [--skip-paths]) compiles to a pattern whose first
    alternative, built from the entry dot-star, matches any one character
    followed by any characters: it is found in every path
    holding a character other than a newline, so every candidate file is
    skipped and the run is the run over no file at all. *)
Theorem default_skip_paths_skip_everything :
  exists ir, ignore_regex IGNORE = Some ir
  /\ (forall p, (exists c, In c p /\ c <> NL) -> skips ir p = true)
  /\ forall cfg fs,
       (forall p, skip_path cfg p = skips ir p) ->
       (forall f, In f fs -> exists c, In c (fname f) /\ c <> NL) ->
       global_search cfg fs = global_search cfg [].
Proof.
  destruct IGNORE_skips_all as [ir [Hir Hsk]].
  exists ir. split; [exact Hir|]. split; [exact Hsk|].
  intros cfg fs Hcfg Hnames.
  unfold global_search.
  rewrite scan_files_all_skipped.
  - reflexivity.
  - intros f Hf. change (skip_path (prepare cfg)) with (skip_path cfg).
    rewrite Hcfg. apply Hsk, Hnames, Hf.
Qed.

(** Extra: a non-empty [skip_paths] whose entries are all empty strings
    still compiles a pattern (the test of line 76 is on the list, the
    filter of line 78 on its entries): the empty pattern, found in every
    path, so every file is skipped. *)
Theorem empty_skip_patterns_skip_everything (skip_paths : list str) :
  skip_paths <> [] -> Forall (fun p => p = []) skip_paths ->
  exists ir, ignore_regex skip_paths = Some ir /\ forall p, skips ir p = true.
Proof.
  intros Hne Hall.
  assert (Hs : ignore_source skip_paths = []).
  { clear Hne. unfold ignore_source.
    induction Hall as [|p ps Hp _ IH]; [reflexivity|]. subst p. exact IH. }
  exists (Some REps). split.
  - unfold ignore_regex. rewrite Hs.
    destruct skip_paths; [contradiction | reflexivity].
  - intros p. cbn [skips]. rewrite <- (app_nil_l p). rewrite <- (app_nil_l ([] ++ p)).
    apply re_search_sub. reflexivity.
Qed.

Lemma empty_skip_patterns_skip_everything_witness :
  exists ir, ignore_regex [[]; []] = Some ir /\ forall p, skips ir p = true.
Proof.
  apply empty_skip_patterns_skip_everything; [discriminate | repeat constructor].
Defined.
